(** * The multi-label training loop of [src/multilabel/train.py]

    A shallow embedding of [train_model] and the properties its
    specification states about it.

    Conventions of the embedding.
    - Scalars (the Python floats [running_loss], [epoch_loss], [best_loss]
      and the entries of tensors) are exact rationals [Q]: the source does not
      fix the dtype of the tensors, so rounding is outside the model.  The one
      division the loop performs on a tensor, which yields [inf] or [nan]
      instead of raising, has its own result type [Double].
    - Python integers are [Z]; [len(...)] is a [nat].
    - A 2-D tensor is the list of its rows, a row the list of its per-class
      entries.
    - The model, optimizer, scheduler, criterion and profiler are opaque
      collaborators: the interface [Collaborators] lists what the loop calls.
    - An exception aborts the run: every function that can raise returns a
      [result].
    - [print] appends a structured line to [stdout]; number formatting and the
      elapsed wall-clock time are not modelled. *)

From Stdlib Require Import List ZArith QArith Qminmax Bool Lia.
Import ListNotations.

Set Implicit Arguments.

(** ** Exceptions *)

Inductive PyError : Type :=
| ZeroDivisionError   (* float division by zero *)
| AttributeError      (* 'int' object has no attribute 'double' *)
| ValueError          (* np.concatenate: no array, or mismatching widths *)
| RuntimeError.       (* torch: shapes that cannot be broadcast *)

Inductive result (A : Type) : Type :=
| Ok (a : A)
| Raise (e : PyError).

Arguments Ok {A} a.
Arguments Raise {A} e.

Definition bind {A B : Type} (m : result A) (k : A -> result B) : result B :=
  match m with
  | Ok a => k a
  | Raise e => Raise e
  end.

Notation "x <- m ;; k" := (bind m (fun x => k))
  (at level 61, m at next level, right associativity).

(** [for x in xs: st = body(st, x)], where the body can raise. *)
Fixpoint for_each {S A : Type} (body : S -> A -> result S) (xs : list A) (st : S)
  : result S :=
  match xs with
  | [] => Ok st
  | x :: rest => st' <- body st x ;; for_each body rest st'
  end.

(** ** Scalars and tensors *)

Inductive Phase : Type := Train | Val.

Definition is_train (phase : Phase) : bool :=
  match phase with Train => true | Val => false end.

Definition is_val (phase : Phase) : bool :=
  match phase with Train => false | Val => true end.

Definition Row : Type := list Q.
Definition Tensor : Type := list Row.

Definition Qltb (x y : Q) : bool := negb (Qle_bool y x).

(** The value of a 0-dim floating tensor, or of the float [.item()] takes out
    of it: torch divides by zero without raising. *)
Inductive Double : Type :=
| Fin (q : Q)
| Inf (negative : bool)
| NaN.

(** [c / d] for a count tensor [c] made floating and a Python int [d]. *)
Definition double_div (c d : Z) : Double :=
  if (d =? 0)%Z then
    if (c =? 0)%Z then NaN else Inf (c <? 0)%Z
  else Fin (inject_Z c / inject_Z d).

(** [100 * x]. *)
Definition percent (x : Double) : Double :=
  match x with
  | Fin q => Fin (100 * q)
  | Inf s => Inf s
  | NaN => NaN
  end.

(** Python [x / n] for a float [x] and an int [n]. *)
Definition py_div (x : Q) (n : Z) : result Q :=
  if (n =? 0)%Z then Raise ZeroDivisionError else Ok (x / inject_Z n).

(** [running_corrects] starts as the Python int [0] and becomes a 0-dim
    integer tensor at the first [running_corrects += curr_acc]. *)
Inductive Counter : Type :=
| PyInt (z : Z)
| IntTensor (z : Z).

Definition counter_iadd (r : Counter) (c : Z) : Counter :=
  match r with
  | PyInt z => IntTensor (z + c)
  | IntTensor z => IntTensor (z + c)
  end.

(** [running_corrects.double()]: only a tensor has the method. *)
Definition counter_double (r : Counter) : result Z :=
  match r with
  | PyInt _ => Raise AttributeError
  | IntTensor z => Ok z
  end.

(** ** Deriving the predictions (lines 101-103) *)

Definition clone (t : Tensor) : Tensor := t.

(** [preds[preds >= 0.5] = 1], on one entry. *)
Definition fill_ge_half (x : Q) : Q := if Qle_bool 0.5 x then 1 else x.

(** [preds[preds < 0.5] = 0], on one entry. *)
Definition fill_lt_half (x : Q) : Q := if Qltb x 0.5 then 0 else x.

Definition derive_preds (outs : Tensor) : Tensor :=
  let preds := clone outs in
  let preds := map (map fill_ge_half) preds in
  map (map fill_lt_half) preds.

(** ** [torch.sum(preds == labels.data)] (line 114) *)

Definition eq_count (p l : Row) : Z :=
  Z.of_nat (length (filter (fun xy => Qeq_bool (fst xy) (snd xy)) (combine p l))).

(** One row against one row; a dimension of size 1 is broadcast. *)
Definition row_matches (p l : Row) : result Z :=
  if Nat.eqb (length p) (length l) then Ok (eq_count p l)
  else match p, l with
       | [x], _ => Ok (eq_count (repeat x (length l)) l)
       | _, [y] => Ok (eq_count p (repeat y (length p)))
       | _, _ => Raise RuntimeError
       end.

Fixpoint rows_matches (rows : list (Row * Row)) : result Z :=
  match rows with
  | [] => Ok 0%Z
  | (p, l) :: rest =>
      c <- row_matches p l ;;
      cs <- rows_matches rest ;;
      Ok (c + cs)%Z
  end.

Definition tensor_matches (preds labels : Tensor) : result Z :=
  if Nat.eqb (length preds) (length labels) then rows_matches (combine preds labels)
  else match preds, labels with
       | [r], _ => rows_matches (combine (repeat r (length labels)) labels)
       | _, [r] => rows_matches (combine preds (repeat r (length preds)))
       | _, _ => Raise RuntimeError
       end.

(** [preds.shape[1] * preds.shape[0]] *)
Definition numel (t : Tensor) : Z :=
  match t with
  | [] => 0%Z
  | r :: _ => (Z.of_nat (length r) * Z.of_nat (length t))%Z
  end.

(** ** [np.concatenate] along the first axis (lines 144-145, 155-156) *)

Definition same_width (t : Tensor) : bool :=
  match t with
  | [] => true
  | r :: rest => forallb (fun r' => Nat.eqb (length r') (length r)) rest
  end.

Definition np_concatenate (arrays : list Tensor) : result Tensor :=
  match arrays with
  | [] => Raise ValueError
  | _ :: _ =>
      if same_width (concat arrays) then Ok (concat arrays) else Raise ValueError
  end.

(** ** The collaborators *)

(** What [train_model] calls on the objects it is handed.  [world] is the
    state of the objects the loop mutates in place (the model with its
    parameters and buffers, the optimizer, the scheduler); [weights] is the
    value [copy.deepcopy(model.state_dict())] captures.  The laws are the
    framework's contract: a model maps a batch to one row of scores per
    example, and loading a state dict makes it the model's state dict. *)
Class Collaborators : Type := {
  sample : Type;
  world : Type;
  weights : Type;
  profile : Type;
  state_dict : world -> weights;
  load_state_dict : weights -> world -> world;
  (* model(inputs), in the mode model.train() / model.eval() selected *)
  forward : world -> Phase -> list sample -> Tensor;
  (* model(inputs) of an inception-style model in training mode *)
  forward_aux : world -> list sample -> Tensor * Tensor;
  (* the object tprofiler.profile(...) binds around that call *)
  profiled : world -> Phase -> list sample -> profile;
  criterion : Tensor -> Tensor -> Q;
  (* loss.backward(); optimizer.step() *)
  backward_step : bool -> world -> list (sample * Row) -> world;
  scheduler_step : world -> world;
  forward_rows : forall w phase xs, length (forward w phase xs) = length xs;
  forward_aux_rows : forall w xs, length (fst (forward_aux w xs)) = length xs;
  load_state_dict_spec : forall p w, state_dict (load_state_dict p w) = p
}.

(** ** The standard output *)

Inductive LogLine : Type :=
| LogEpoch (epoch1 num_epochs : Z)                         (* line 41 *)
| LogRule                                                  (* line 42 *)
| LogStep (epoch1 num_epochs i total_steps : Z)
          (curr_loss : Q) (accuracy : Double)              (* lines 121-123 *)
| LogPhase (phase : Phase) (epoch_loss : Q) (acc100 : Double) (* lines 131-133 *)
| LogBlank                                                 (* line 164 *)
| LogComplete                                              (* lines 167-171 *)
| LogBestAcc (best_acc : Double)                           (* line 172 *)
| LogBestLoss (best_loss : Q).                             (* line 173 *)

(** ** State of the loop *)

(** The four lists of one of the two returned dicts. *)
Record History : Type := {
  acc : list Double;
  loss : list Q;
  targets : list Tensor;
  outputs : list Tensor
}.

Definition empty_history : History :=
  {| acc := []; loss := []; targets := []; outputs := [] |}.

Section Loop.

Context {C : Collaborators}.

(** A batch as the loader collates it: one label row per example. *)
Definition Batch : Type := list (sample * Row).

Record DataLoader : Type := {
  batches : nat -> list Batch;   (* the batches iterating it yields in an epoch *)
  dataset_len : nat;             (* len(loader.dataset) *)
  loader_len : nat               (* len(loader) *)
}.

Record LoopState : Type := {
  model : world;
  best_model_wts : weights;
  best_loss : Q;
  best_acc : Double;
  prof : option profile;
  val_history : History;
  train_history : History;
  stdout : list LogLine
}.

(** The locals of one phase of one epoch (lines 51-57). *)
Record PhaseState : Type := {
  ph_model : world;
  ph_prof : option profile;
  running_loss : Q;
  running_corrects : Counter;
  i : Z;
  targets_batch : list Tensor;
  outputs_batch : list Tensor;
  ph_stdout : list LogLine
}.

Variable dataloaders : Phase -> DataLoader.
Variable num_epochs : Z.
Variable num_classes : Z.
Variable is_inception : bool.
Variable profiler : bool.

(** The forward pass and the loss of one batch (lines 78-98). *)
Definition forward_loss (w : world) (phase : Phase) (inputs : list sample)
  (labels : Tensor) : Tensor * Q :=
  if is_inception && is_train phase then
    let '(outs, aux_outputs) := forward_aux w inputs in
    let loss1 := criterion outs labels in
    let loss2 := criterion aux_outputs labels in
    (outs, loss1 + 0.4 * loss2)
  else
    let outs := forward w phase inputs in
    (outs, criterion outs labels).

(** The body of the loop over the batches (lines 61-123). *)
Definition batch_step (epoch : nat) (phase : Phase) (st : PhaseState)
  (batch : Batch) : result PhaseState :=
  let i' := (i st + 1)%Z in
  let inputs := map fst batch in
  let labels := map snd batch in
  let w := ph_model st in
  let '(outs, loss_) := forward_loss w phase inputs labels in
  let prof' := if profiler then Some (profiled w phase inputs) else ph_prof st in
  let preds := derive_preds outs in
  let w' := if is_train phase then backward_step is_inception w batch else w in
  let curr_loss := loss_ in
  let running_loss' := running_loss st + curr_loss * inject_Z (Z.of_nat (length inputs)) in
  curr_acc <- tensor_matches preds labels ;;
  let running_corrects' := counter_iadd (running_corrects st) curr_acc in
  let line :=
    if (i' mod 100 =? 0)%Z then
      [LogStep (Z.of_nat epoch + 1) num_epochs i'
         (Z.of_nat (loader_len (dataloaders Train))) curr_loss
         (double_div (100 * curr_acc) (numel preds))]
    else [] in
  Ok {| ph_model := w';
        ph_prof := prof';
        running_loss := running_loss';
        running_corrects := running_corrects';
        i := i';
        targets_batch := targets_batch st ++ [labels];
        outputs_batch := outputs_batch st ++ [preds];
        ph_stdout := ph_stdout st ++ line |}.

Definition phase_start (st : LoopState) : PhaseState :=
  {| ph_model := model st;
     ph_prof := prof st;
     running_loss := 0;
     running_corrects := PyInt 0;
     i := 0;
     targets_batch := [];
     outputs_batch := [];
     ph_stdout := stdout st |}.

Definition append_history (h : History) (epoch_acc : Double) (epoch_loss : Q)
  (targets_all outputs_all : Tensor) : History :=
  {| acc := acc h ++ [epoch_acc];
     loss := loss h ++ [epoch_loss];
     targets := targets h ++ [targets_all];
     outputs := outputs h ++ [outputs_all] |}.

(** One phase of one epoch (lines 46-161). *)
Definition run_phase (epoch : nat) (phase : Phase) (st : LoopState)
  : result LoopState :=
  let loader := dataloaders phase in
  ps <- for_each (batch_step epoch phase) (batches loader epoch) (phase_start st) ;;
  epoch_loss <- py_div (running_loss ps) (Z.of_nat (dataset_len loader)) ;;
  corrects <- counter_double (running_corrects ps) ;;
  let epoch_acc := double_div corrects (Z.of_nat (dataset_len loader) * num_classes) in
  let out := ph_stdout ps ++ [LogPhase phase epoch_loss (percent epoch_acc)] in
  let improved := is_val phase && Qltb epoch_loss (best_loss st) in
  let best_loss' := if improved then epoch_loss else best_loss st in
  let best_acc' := if improved then epoch_acc else best_acc st in
  let best_model_wts' :=
    if improved then state_dict (ph_model ps) else best_model_wts st in
  outputs_all <- np_concatenate (outputs_batch ps) ;;
  targets_all <- np_concatenate (targets_batch ps) ;;
  Ok {| model := ph_model ps;
        best_model_wts := best_model_wts';
        best_loss := best_loss';
        best_acc := best_acc';
        prof := ph_prof ps;
        val_history :=
          if is_val phase
          then append_history (val_history st) epoch_acc epoch_loss targets_all outputs_all
          else val_history st;
        train_history :=
          if is_val phase
          then train_history st
          else append_history (train_history st) epoch_acc epoch_loss targets_all outputs_all;
        stdout := out |}.

(** The two lines that open an epoch (lines 41-42). *)
Definition epoch_begin (epoch : nat) (st : LoopState) : LoopState :=
  {| model := model st;
     best_model_wts := best_model_wts st;
     best_loss := best_loss st;
     best_acc := best_acc st;
     prof := prof st;
     val_history := val_history st;
     train_history := train_history st;
     stdout := stdout st ++ [LogEpoch (Z.of_nat epoch + 1) num_epochs; LogRule] |}.

(** The two phases of one epoch (lines 41-161). *)
Definition epoch_body (epoch : nat) (st : LoopState) : result LoopState :=
  st1 <- run_phase epoch Train (epoch_begin epoch st) ;;
  run_phase epoch Val st1.

(** [scheduler.step(); print()] (lines 163-164). *)
Definition epoch_end (st : LoopState) : LoopState :=
  {| model := scheduler_step (model st);
     best_model_wts := best_model_wts st;
     best_loss := best_loss st;
     best_acc := best_acc st;
     prof := prof st;
     val_history := val_history st;
     train_history := train_history st;
     stdout := stdout st ++ [LogBlank] |}.

(** [count] iterations of the loop over the epochs, from [epoch] on. *)
Fixpoint run_epochs (count : nat) (epoch : nat) (st : LoopState)
  : result LoopState :=
  match count with
  | O => Ok st
  | S count' =>
      st' <- epoch_body epoch st ;;
      run_epochs count' (S epoch) (epoch_end st')
  end.

(** Lines 24-36. *)
Definition initial_state (m : world) : LoopState :=
  {| model := m;
     best_model_wts := state_dict m;
     best_loss := 10000.0;
     best_acc := Fin 0.0;
     prof := None;
     val_history := empty_history;
     train_history := empty_history;
     stdout := [] |}.

(** What the caller gets: the returned tuple and what was printed. *)
Record Output : Type := {
  out_model : world;
  out_prof : option profile;
  out_val : History;
  out_train : History;
  out_stdout : list LogLine
}.

Definition finish (st : LoopState) : Output :=
  {| out_model := load_state_dict (best_model_wts st) (model st);
     out_prof := prof st;
     out_val := val_history st;
     out_train := train_history st;
     out_stdout :=
       stdout st ++ [LogComplete; LogBestAcc (best_acc st); LogBestLoss (best_loss st)] |}.

Definition train_model (m : world) (threshold : Q) : result Output :=
  st <- run_epochs (Z.to_nat num_epochs) 0 (initial_state m) ;;
  Ok (finish st).

End Loop.

Arguments train_model {C} dataloaders num_epochs num_classes is_inception profiler m threshold.

(** ** The three statements of lines 101-103 on a store of tensors

    [torch.clone] allocates a new tensor; the two masked assignments write
    into the tensor their variable refers to.  The loop above uses the pure
    [derive_preds]; this model says what happens to the tensor [outputs]
    refers to. *)

Module Store.

Definition ref : Type := nat.
Definition store : Type := list Tensor.

Definition get (s : store) (r : ref) : Tensor := nth r s [].

(** In-place update of the tensor at [r]. *)
Fixpoint set (s : store) (r : ref) (t : Tensor) : store :=
  match s, r with
  | [], _ => []
  | _ :: rest, O => t :: rest
  | x :: rest, S r' => x :: set rest r' t
  end.

(** [torch.clone(x)] *)
Definition torch_clone (s : store) (x : ref) : ref * store :=
  (length s, s ++ [get s x]).

(** [t[t >= 0.5] = 1] *)
Definition setitem_ge_half (s : store) (t : ref) : store :=
  set s t (map (map fill_ge_half) (get s t)).

(** [t[t < 0.5] = 0] *)
Definition setitem_lt_half (s : store) (t : ref) : store :=
  set s t (map (map fill_lt_half) (get s t)).

Definition derive_preds_in_place (s : store) (outs : ref) : ref * store :=
  let '(preds, s1) := torch_clone s outs in
  let s2 := setitem_ge_half s1 preds in
  let s3 := setitem_lt_half s2 preds in
  (preds, s3).

End Store.

(** ** Definitions that follow the words of the specification *)

(** "set entries >= threshold to 1, entries < threshold to 0", at the cutoff
    0.5. *)
Definition spec_threshold (x : Q) : Q := if Qle_bool 0.5 x then 1 else 0.

(** What the thresholding does to one entry [x], giving [y]. *)
Definition thresholded (x y : Q) : Prop :=
  (0.5 <= x -> y = 1)%Q /\ (x < 0.5 -> y = 0)%Q.

(** Sum of a list of rationals. *)
Definition Qsum (xs : list Q) : Q := fold_right Qplus 0 xs.

Definition Zsum (xs : list Z) : Z := fold_right Z.add 0%Z xs.

Definition nat_sum (xs : list nat) : nat := fold_right Nat.add 0%nat xs.

(** [x] lies in the closed interval [0, 1]. *)
Definition in_unit_interval (x : Double) : Prop :=
  match x with
  | Fin q => 0 <= q /\ q <= 1
  | _ => False
  end.

(** ** The batches of one phase, one by one

    The loop threads the model through the batches of a phase; these
    definitions name what each batch contributes. *)

Section Trace.

Context {C : Collaborators}.
Variable is_inception : bool.

(** The model after one batch: an optimizer step in the training phase. *)
Definition after_batch (phase : Phase) (w : world) (b : Batch) : world :=
  if is_train phase then backward_step is_inception w b else w.

(** Every batch paired with the model that processes it. *)
Fixpoint phase_trace (phase : Phase) (w : world) (bs : list Batch)
  : list (world * Batch) :=
  match bs with
  | [] => []
  | b :: rest => (w, b) :: phase_trace phase (after_batch phase w b) rest
  end.

(** The model after the last batch. *)
Definition phase_model (phase : Phase) (w : world) (bs : list Batch) : world :=
  fold_left (after_batch phase) bs w.

(** [inputs.size(0)] *)
Definition batch_size (b : Batch) : nat := length (map fst b).

Definition batch_labels (b : Batch) : Tensor := map snd b.

(** The scalar loss of a batch. *)
Definition batch_loss (phase : Phase) (wb : world * Batch) : Q :=
  snd (forward_loss is_inception (fst wb) phase (map fst (snd wb)) (batch_labels (snd wb))).

Definition batch_outputs (phase : Phase) (wb : world * Batch) : Tensor :=
  fst (forward_loss is_inception (fst wb) phase (map fst (snd wb)) (batch_labels (snd wb))).

Definition batch_preds (phase : Phase) (wb : world * Batch) : Tensor :=
  derive_preds (batch_outputs phase wb).

(** The batch loss times the batch size. *)
Definition weighted_loss (phase : Phase) (wb : world * Batch) : Q :=
  batch_loss phase wb * inject_Z (Z.of_nat (batch_size (snd wb))).

(** [c] is the number of positions of the batch where the prediction equals
    the label. *)
Definition batch_corrects (phase : Phase) (wb : world * Batch) (c : Z) : Prop :=
  tensor_matches (batch_preds phase wb) (batch_labels (snd wb)) = Ok c.

End Trace.

(** An entry of a multi-hot tensor. *)
Definition binary (x : Q) : Prop := (x == 0 \/ x == 1)%Q.

Section Conditions.

Context {C : Collaborators}.
Variable dataloaders : Phase -> DataLoader.
Variable is_inception : bool.

(** The phase of [epoch] that starts with the model [w]. *)
Definition epoch_trace (phase : Phase) (epoch : nat) (w : world) : list (world * Batch) :=
  phase_trace is_inception phase w (batches (dataloaders phase) epoch).

(** "predictions and labels in {0,1}" *)
Definition binary_batches (phase : Phase) (epoch : nat) (w : world) : Prop :=
  Forall (fun wb =>
            Forall (Forall binary) (batch_preds is_inception phase wb) /\
            Forall (Forall binary) (batch_labels (snd wb)))
    (epoch_trace phase epoch w).

(** The dataset size the loader reports is the sum of its batch sizes. *)
Definition sizes_add_up (phase : Phase) (epoch : nat) : Prop :=
  dataset_len (dataloaders phase)
  = nat_sum (map batch_size (batches (dataloaders phase) epoch)).

(** Every prediction row and every label row has [num_classes] entries. *)
Definition shaped_batches (num_classes : Z) (phase : Phase) (epoch : nat) (w : world)
  : Prop :=
  Forall (fun wb =>
            Forall (fun r => Z.of_nat (length r) = num_classes)
              (batch_preds is_inception phase wb) /\
            Forall (fun r => Z.of_nat (length r) = num_classes)
              (batch_labels (snd wb)))
    (epoch_trace phase epoch w).

End Conditions.




(** [j] is the first epoch whose validation loss is the least of the run. *)
Definition first_minimum (losses : list Q) (j : nat) : Prop :=
  (j < length losses)%nat /\
  (forall i, (i < length losses)%nat -> nth j losses 0 <= nth i losses 0)%Q /\
  (forall i, (i < j)%nat -> nth j losses 0 < nth i losses 0)%Q.

Section Checkpoints.

Context {C : Collaborators}.
Variable dataloaders : Phase -> DataLoader.
Variables num_epochs num_classes : Z.
Variables is_inception profiler : bool.
Variable m : world.

(** [p] is the state dict of the model at the end of the validation phase of
    [epoch], where line 140 copies it. *)
Definition checkpoint_of_epoch (epoch : nat) (p : weights) : Prop :=
  exists st s,
    run_epochs dataloaders num_epochs num_classes is_inception profiler
      epoch 0 (initial_state m) = Ok st /\
    epoch_body dataloaders num_epochs num_classes is_inception profiler epoch st = Ok s /\
    p = state_dict (model s).

(** No validation loss so far was below the initial [best_loss]. *)
Definition no_checkpoint_yet (st : LoopState) : Prop :=
  best_loss st = 10000.0%Q /\
  best_acc st = Fin 0.0 /\
  best_model_wts st = state_dict m /\
  forall l, In l (loss (val_history st)) -> (10000.0 <= l)%Q.

(** The checkpoint is the one of epoch [j], the first minimum so far. *)
Definition checkpoint_at (st : LoopState) (j : nat) : Prop :=
  first_minimum (loss (val_history st)) j /\
  checkpoint_of_epoch j (best_model_wts st) /\
  best_loss st = nth j (loss (val_history st)) 0%Q /\
  (best_loss st < 10000.0)%Q.

End Checkpoints.

(** The phase appended an accuracy in [0, 1] to its history. *)
Definition appended_unit_acc (before after : History) : Prop :=
  exists epoch_acc,
    acc after = acc before ++ [epoch_acc] /\ in_unit_interval epoch_acc.

Definition counter_value (r : Counter) : Z :=
  match r with
  | PyInt z => z
  | IntTensor z => z
  end.

(** The history a phase appends to. *)
Definition history_of {C : Collaborators} (phase : Phase) (st : LoopState) : History :=
  match phase with
  | Train => train_history st
  | Val => val_history st
  end.

Definition out_history_of {C : Collaborators} (phase : Phase) (r : Output) : History :=
  match phase with
  | Train => out_train r
  | Val => out_val r
  end.

(** ** A small instance of the interface

    The model returns its input rows as scores (so a batch decides what the
    model outputs), the auxiliary head adds one to every score, the criterion
    reads the first score of the batch, an optimizer step counts up the
    parameters and a scheduler step counts up the scheduler. *)

Module Example.

Record toy_world : Type := {
  params : nat;
  sched_ticks : nat
}.

Definition first_entry (t : Tensor) : Q :=
  match t with
  | (x :: _) :: _ => x
  | _ => 0
  end.

Definition toy : Collaborators :=
  {| sample := Row;
     world := toy_world;
     weights := nat;
     profile := nat;
     state_dict := params;
     load_state_dict := fun p w => {| params := p; sched_ticks := sched_ticks w |};
     forward := fun _ _ xs => xs;
     forward_aux := fun _ xs => (xs, map (map (fun x => x + 1)) xs);
     profiled := fun w _ _ => params w;
     criterion := fun t _ => first_entry t;
     backward_step := fun _ w _ =>
       {| params := S (params w); sched_ticks := sched_ticks w |};
     scheduler_step := fun w =>
       {| params := params w; sched_ticks := S (sched_ticks w) |};
     forward_rows := fun _ _ _ => eq_refl;
     forward_aux_rows := fun _ _ => eq_refl;
     load_state_dict_spec := fun _ _ => eq_refl |}.

(** A batch from its (scores, label row) pairs. *)
Definition batch_of (rows : list (Row * Row)) : @Batch toy := rows.

(** A loader over [n] examples that yields the same batches every epoch. *)
Definition fixed_loader (bs : list (@Batch toy)) (n : nat) : @DataLoader toy :=
  {| batches := fun _ => bs; dataset_len := n; loader_len := length bs |}.

(** A loader whose single one-example batch in epoch [e] has score [nth e scores]. *)
Definition scored_loader (scores : list Q) : @DataLoader toy :=
  {| batches := fun e => [batch_of [([nth e scores 0], [1])]];
     dataset_len := 1;
     loader_len := 1 |}.

Definition w0 : toy_world := {| params := 0; sched_ticks := 0 |}.

(** The state of the loop before the first epoch. *)
Definition st0 : @LoopState toy := initial_state (C := toy) w0.

(** One training example per epoch. *)
Definition one_example : @DataLoader toy :=
  fixed_loader [batch_of [([0.2], [0])]]%Q 1.

(** Validation losses 0.9, 0.7, 0.8 over three epochs. *)
Definition scenario_loaders (phase : Phase) : @DataLoader toy :=
  match phase with
  | Train => one_example
  | Val => scored_loader [0.9; 0.7; 0.8]%Q
  end.

(** A validation loss of 20000 in the only epoch. *)
Definition sentinel_loaders (phase : Phase) : @DataLoader toy :=
  match phase with
  | Train => one_example
  | Val => scored_loader [20000.0]%Q
  end.

(** Loaders that yield no batch, over a dataset of [n] examples. *)
Definition no_batches (n : nat) (phase : Phase) : @DataLoader toy :=
  fixed_loader [] n.

(** Four examples in two batches of two, three classes, every score 0.6,
    every label 1. *)
Definition constant_batches : list (@Batch toy) :=
  [batch_of [([0.6; 0.6; 0.6], [1; 1; 1]); ([0.6; 0.6; 0.6], [1; 1; 1])];
   batch_of [([0.6; 0.6; 0.6], [1; 1; 1]); ([0.6; 0.6; 0.6], [1; 1; 1])]]%Q.

Definition constant_loaders (phase : Phase) : @DataLoader toy :=
  fixed_loader constant_batches 4.

(** Two examples in one batch, two classes, predictions equal to the labels. *)
Definition two_class_batches : list (@Batch toy) :=
  [batch_of [([1; 1], [1; 1]); ([0; 0], [0; 0])]]%Q.

Definition two_class_loaders (phase : Phase) : @DataLoader toy :=
  fixed_loader two_class_batches 2.

(** A store holding one raw output of two examples and two classes. *)
Definition raw_store : Store.store := [[[0.5; 0.2]; [0.7; 0.4]]]%Q.

End Example.

(** ** The positions at which two tensors agree

    What "the count of positions where prediction equals label" means, said
    by index and without the loop's own counting functions. *)

(** The number of indices below [n] that satisfy [f]. *)
Fixpoint count_below (n : nat) (f : nat -> bool) : Z :=
  match n with
  | O => 0%Z
  | S k => (count_below k f + (if f k then 1 else 0))%Z
  end.

(** The sum of [f] over the indices below [n], if [f] is defined on all. *)
Fixpoint sum_below (n : nat) (f : nat -> option Z) : option Z :=
  match n with
  | O => Some 0%Z
  | S k =>
      match sum_below k f, f k with
      | Some a, Some b => Some (a + b)%Z
      | _, _ => None
      end
  end.

(** The length two dimensions of lengths [a] and [b] are compared at: equal
    lengths, or a length of 1 stretched to the other. *)
Definition broadcast_len (a b : nat) : option nat :=
  if Nat.eqb a b then Some a
  else if Nat.eqb a 1 then Some b
  else if Nat.eqb b 1 then Some a
  else None.

(** The element at index [k] of [l], a list of one element standing for a
    list of any length. *)
Definition stretched {A : Type} (d : A) (l : list A) (k : nat) : A :=
  nth (if Nat.eqb (length l) 1 then O else k) l d.

(** The number of positions of two rows at which the entries are equal. *)
Definition row_equal_positions (p l : Row) : option Z :=
  match broadcast_len (length p) (length l) with
  | Some width =>
      Some (count_below width (fun j => Qeq_bool (stretched 0 p j) (stretched 0 l j)))
  | None => None
  end.

(** The number of positions (row, column) of two tensors at which the
    entries are equal; [None] when the shapes cannot be compared. *)
Definition equal_positions (p l : Tensor) : option Z :=
  match broadcast_len (length p) (length l) with
  | Some rows =>
      sum_below rows
        (fun k => row_equal_positions (stretched [] p k) (stretched [] l k))
  | None => None
  end.

Section Positions.

Context {C : Collaborators}.
Variable dataloaders : Phase -> DataLoader.
Variable is_inception : bool.

(** [c] is the number of positions of the batch at which the prediction
    equals the label. *)
Definition positions_agree (phase : Phase) (wb : world * Batch) (c : Z) : Prop :=
  equal_positions (batch_preds is_inception phase wb) (batch_labels (snd wb)) = Some c.

(** Every prediction tensor and every label tensor has one row per example of
    its batch. *)
Definition rows_per_example (phase : Phase) (epoch : nat) (w : world) : Prop :=
  Forall (fun wb =>
            length (batch_preds is_inception phase wb) = batch_size (snd wb) /\
            length (batch_labels (snd wb)) = batch_size (snd wb))
    (epoch_trace dataloaders is_inception phase epoch w).

End Positions.

(** ** What a run leaves behind: further definitions *)

Definition is_step_line (l : LogLine) : bool :=
  match l with
  | LogStep _ _ _ _ _ _ => true
  | _ => false
  end.

(** A printed line without its numbers. *)
Inductive LineKind : Type :=
| KEpoch (epoch1 : Z)
| KRule
| KStep
| KPhase (phase : Phase)
| KBlank
| KComplete
| KBestAcc
| KBestLoss.

Definition kind_of (l : LogLine) : LineKind :=
  match l with
  | LogEpoch e _ => KEpoch e
  | LogRule => KRule
  | LogStep _ _ _ _ _ _ => KStep
  | LogPhase phase _ _ => KPhase phase
  | LogBlank => KBlank
  | LogComplete => KComplete
  | LogBestAcc _ => KBestAcc
  | LogBestLoss _ => KBestLoss
  end.

(** The step index a progress line shows. *)
Definition step_index (l : LogLine) : Z :=
  match l with
  | LogStep _ _ i _ _ _ => i
  | _ => 0%Z
  end.

(** The 1-based indices of [n] batches that are multiples of 100. *)
Definition hundredth_steps (n : nat) : list Z :=
  filter (fun j => (j mod 100 =? 0)%Z) (map (fun k => (Z.of_nat k + 1)%Z) (seq 0 n)).

(** The printed lines other than the progress lines, without their numbers. *)
Definition skeleton (log : list LogLine) : list LineKind :=
  map kind_of (filter (fun l => negb (is_step_line l)) log).

(** The lines of one epoch: header, rule, the two phase summaries, blank. *)
Definition epoch_skeleton (epoch : nat) : list LineKind :=
  [KEpoch (Z.of_nat epoch + 1); KRule; KPhase Train; KPhase Val; KBlank].

Section Models.

Context {C : Collaborators}.
Variable dataloaders : Phase -> DataLoader.
Variable is_inception : bool.

(** The model after the training batches of [epoch]: one optimizer step per
    batch, in the order the loader yields them. *)
Definition train_pass (epoch : nat) (w : world) : world :=
  fold_left (backward_step is_inception) (batches (dataloaders Train) epoch) w.

(** The model after [k] whole epochs: each one a training pass, then one
    scheduler step. *)
Fixpoint epochs_model (k : nat) (m : world) : world :=
  match k with
  | O => m
  | S k' => scheduler_step (train_pass k' (epochs_model k' m))
  end.

(** The model a phase of [epoch] starts with: validation comes after the
    training pass. *)
Definition phase_world (phase : Phase) (epoch : nat) (m : world) : world :=
  match phase with
  | Train => epochs_model epoch m
  | Val => train_pass epoch (epochs_model epoch m)
  end.

End Models.

(** Further inputs for the small instance. *)
Module Demo.

Import Example.

(** [n] one-example batches, prediction and label both 1. *)
Definition many_batches (n : nat) : list (@Batch toy) :=
  repeat (batch_of [([1], [1])]%Q) n.

Definition many_loaders (n : nat) (phase : Phase) : @DataLoader toy :=
  fixed_loader (many_batches n) n.

(** A batch whose label rows have three entries and whose scores have two. *)
Definition ragged_loaders (phase : Phase) : @DataLoader toy :=
  fixed_loader [batch_of [([1; 1], [1; 1; 1])]%Q] 1.

(** Validation losses 0.3 then 0.2; the second epoch has the lower loss and
    the lower accuracy. *)
Definition trade_off_loaders (phase : Phase) : @DataLoader toy :=
  match phase with
  | Train => one_example
  | Val =>
      {| batches := fun e =>
           match e with
           | O => [batch_of [([0.3], [0])]%Q]
           | _ => [batch_of [([0.2], [1])]%Q]
           end;
         dataset_len := 1;
         loader_len := 1 |}
  end.

(** Three examples in batches of two and one, two classes; five of the six
    predictions equal their label. *)
Definition mixed_batches : list (@Batch toy) :=
  [batch_of [([0.6; 0.2], [1; 0]); ([0.9; 0.8], [1; 0])];
   batch_of [([0.3; 0.7], [0; 1])]]%Q.

Definition mixed_loaders (phase : Phase) : @DataLoader toy :=
  fixed_loader mixed_batches 3.

End Demo.

(** * Properties *)

Local Open Scope Q_scope.

(** ** The error monad *)

Lemma bind_Ok {A B : Type} (m : result A) (k : A -> result B) (b : B) :
  bind m k = Ok b -> exists a, m = Ok a /\ k a = Ok b.
Proof.
  destruct m as [a | e]; simpl; intros H.
  - exists a. split; [reflexivity | exact H].
  - discriminate H.
Qed.

(** Splits a hypothesis [x <- m ;; k = Ok b] into its two steps. *)
Ltac bind_inv H :=
  let a := fresh "a" in
  let Ha := fresh "Ha" in
  apply bind_Ok in H; destruct H as [a [Ha H]].

(** ** Comparisons of rationals *)

Lemma Qltb_lt (x y : Q) : Qltb x y = true <-> x < y.
Proof.
  unfold Qltb. rewrite negb_true_iff. split.
  - intros H. apply Qnot_le_lt. intros Hle.
    apply Qle_bool_iff in Hle. congruence.
  - intros H. destruct (Qle_bool y x) eqn:E; [| reflexivity].
    apply Qle_bool_iff in E. exfalso. exact (Qlt_not_le _ _ H E).
Qed.

Lemma Qltb_ge (x y : Q) : Qltb x y = false <-> y <= x.
Proof.
  unfold Qltb. rewrite negb_false_iff. apply Qle_bool_iff.
Qed.

(** The update of [best_loss] (lines 137-138) is Python's [min]. *)
Lemma improved_min (epoch_loss best : Q) :
  (if Qltb epoch_loss best then epoch_loss else best) = Qmin best epoch_loss.
Proof.
  unfold Qmin, GenericMinMax.gmin.
  destruct (Qltb epoch_loss best) eqn:E.
  - apply Qltb_lt in E. apply Qgt_alt in E. rewrite E. reflexivity.
  - apply Qltb_ge in E. destruct (best ?= epoch_loss) eqn:E'; try reflexivity.
    apply Qgt_alt in E'. exfalso. exact (Qlt_not_le _ _ E' E).
Qed.

(** ** Thresholding *)

Lemma threshold_entry (x : Q) : fill_lt_half (fill_ge_half x) = spec_threshold x.
Proof.
  unfold fill_lt_half, fill_ge_half, spec_threshold.
  destruct (Qle_bool 0.5 x) eqn:E.
  - reflexivity.
  - unfold Qltb. rewrite E. reflexivity.
Qed.

Lemma derive_preds_spec (outs : Tensor) :
  derive_preds outs = map (map spec_threshold) outs.
Proof.
  unfold derive_preds, clone. rewrite map_map.
  apply map_ext. intros row. rewrite map_map.
  apply map_ext. exact threshold_entry.
Qed.


Lemma spec_threshold_thresholded (x : Q) : thresholded x (spec_threshold x).
Proof.
  unfold thresholded, spec_threshold. destruct (Qle_bool 0.5 x) eqn:E; split; intros H.
  - reflexivity.
  - apply Qle_bool_iff in E. exfalso. exact (Qlt_not_le _ _ H E).
  - apply Qle_bool_iff in H. congruence.
  - reflexivity.
Qed.

Lemma Forall2_map_r {A B : Type} (R : A -> B -> Prop) (f : A -> B) (xs : list A) :
  (forall x, R x (f x)) -> Forall2 R xs (map f xs).
Proof.
  intros H. induction xs as [| x xs IH]; simpl; constructor; auto.
Qed.

Lemma derive_preds_thresholded (outs : Tensor) :
  Forall2 (Forall2 thresholded) outs (derive_preds outs).
Proof.
  rewrite derive_preds_spec.
  apply Forall2_map_r. intros row.
  apply Forall2_map_r. exact spec_threshold_thresholded.
Qed.

(** ** The store *)

Lemma get_app_old (s : Store.store) (t : Tensor) (r : Store.ref) :
  (r < length s)%nat -> Store.get (s ++ [t]) r = Store.get s r.
Proof. intros H. unfold Store.get. apply app_nth1. exact H. Qed.

Lemma get_app_new (s : Store.store) (t : Tensor) :
  Store.get (s ++ [t]) (length s) = t.
Proof.
  unfold Store.get. rewrite app_nth2 by lia. rewrite Nat.sub_diag. reflexivity.
Qed.

Lemma length_set (s : Store.store) (r : Store.ref) (t : Tensor) :
  length (Store.set s r t) = length s.
Proof.
  revert r. induction s as [| x s IH]; intros [| r]; simpl; auto.
Qed.

Lemma get_set_same (s : Store.store) (r : Store.ref) (t : Tensor) :
  (r < length s)%nat -> Store.get (Store.set s r t) r = t.
Proof.
  revert r. induction s as [| x s IH]; intros [| r]; simpl; intros H; try lia.
  - reflexivity.
  - apply IH. lia.
Qed.

Lemma get_set_other (s : Store.store) (r r' : Store.ref) (t : Tensor) :
  r <> r' -> Store.get (Store.set s r t) r' = Store.get s r'.
Proof.
  revert r r'. induction s as [| x s IH]; intros [| r] [| r'] H; simpl;
    try reflexivity; try congruence.
  apply IH. congruence.
Qed.

(** C3: the predictions are a thresholded clone; the raw output is untouched. *)
Theorem preds_thresholded_clone (s : Store.store) (outs : Store.ref) :
  (outs < length s)%nat ->
  forall preds s', Store.derive_preds_in_place s outs = (preds, s') ->
    preds <> outs /\
    Store.get s' outs = Store.get s outs /\
    Store.get s' preds = derive_preds (Store.get s outs) /\
    Forall2 (Forall2 thresholded) (Store.get s outs) (Store.get s' preds) /\
    derive_preds [[0.5]] = [[1]].
Proof.
  intros Hvalid preds s' Hrun.
  unfold Store.derive_preds_in_place, Store.torch_clone in Hrun.
  injection Hrun as Hpreds Hs'. subst preds.
  assert (Hne : length s <> outs) by lia.
  assert (Hnew : (length s < length (s ++ [Store.get s outs]))%nat)
    by (rewrite length_app; simpl; lia).
  assert (Hfinal : Store.get s' (length s) = derive_preds (Store.get s outs)).
  { subst s'. unfold Store.setitem_lt_half, Store.setitem_ge_half.
    rewrite get_set_same by (rewrite length_set; exact Hnew).
    rewrite get_set_same by exact Hnew.
    rewrite get_app_new. reflexivity. }
  split; [exact Hne |]. split; [| split; [exact Hfinal | split]].
  - subst s'. unfold Store.setitem_lt_half, Store.setitem_ge_half.
    rewrite !get_set_other by exact Hne.
    apply get_app_old. exact Hvalid.
  - rewrite Hfinal. apply derive_preds_thresholded.
  - reflexivity.
Qed.

Lemma preds_thresholded_clone_witness :
  (0 < length Example.raw_store)%nat /\
  Store.get (snd (Store.derive_preds_in_place Example.raw_store 0%nat)) 0%nat
  = [[0.5; 0.2]; [0.7; 0.4]] /\
  Store.get (snd (Store.derive_preds_in_place Example.raw_store 0%nat)) 1%nat
  = [[1; 0]; [1; 0]].
Proof.
  assert (H : (0 < length Example.raw_store)%nat) by (simpl; lia).
  destruct (@preds_thresholded_clone Example.raw_store 0%nat H 1%nat _ eq_refl)
    as [_ [Hraw [Hpreds _]]].
  split; [exact H |]. split; [exact Hraw |].
  transitivity (derive_preds (Store.get Example.raw_store 0%nat));
    [exact Hpreds | reflexivity].
Defined.

(** ** The threshold parameter *)


(** ** The loss of a batch *)

(** C4: with [is_inception] in the training phase the loss adds 0.4 times the
    criterion of the auxiliary output; in every other case it is the criterion
    of the single output; and that loss is what the batch adds to
    [running_loss], weighted by the batch size. *)
Theorem inception_loss {C : Collaborators} (w : world) (inputs : list sample)
  (labels : Tensor) :
  forward_loss true w Train inputs labels
  = (fst (forward_aux w inputs),
     criterion (fst (forward_aux w inputs)) labels
     + 0.4 * criterion (snd (forward_aux w inputs)) labels) /\
  (criterion (fst (forward_aux w inputs)) labels == 1.0 ->
   criterion (snd (forward_aux w inputs)) labels == 2.0 ->
   snd (forward_loss true w Train inputs labels) == 1.8) /\
  (forall is_inception phase, is_inception && is_train phase = false ->
     forward_loss is_inception w phase inputs labels
     = (forward w phase inputs, criterion (forward w phase inputs) labels)) /\
  (forall dataloaders num_epochs is_inception profiler epoch phase st batch st',
     batch_step dataloaders num_epochs is_inception profiler epoch phase st batch = Ok st' ->
     running_loss st'
     = running_loss st
       + snd (forward_loss is_inception (ph_model st) phase (map fst batch) (map snd batch))
         * inject_Z (Z.of_nat (length (map fst batch)))).
Proof.
  assert (Hpair : forward_loss true w Train inputs labels
                  = (fst (forward_aux w inputs),
                     criterion (fst (forward_aux w inputs)) labels
                     + 0.4 * criterion (snd (forward_aux w inputs)) labels)).
  { unfold forward_loss. simpl. destruct (forward_aux w inputs); reflexivity. }
  split; [exact Hpair |]. split; [| split].
  - intros H1 H2. rewrite Hpair. simpl. rewrite H1, H2. reflexivity.
  - intros is_inception phase H. unfold forward_loss. rewrite H. reflexivity.
  - intros dataloaders num_epochs is_inception profiler epoch phase st batch st' H.
    unfold batch_step in H.
    destruct (forward_loss is_inception (ph_model st) phase (map fst batch) (map snd batch))
      as [outs l].
    bind_inv H. injection H as <-. reflexivity.
Qed.

Lemma inception_loss_witness :
  snd (forward_loss (C := Example.toy) true Example.w0 Train [[1]] [[1]]) == 1.8.
Proof.
  destruct (@inception_loss Example.toy Example.w0 [[1]] [[1]]) as [_ [H _]].
  apply H; reflexivity.
Defined.

(** ** No epoch at all *)

(** C10: with [num_epochs = 0] nothing is processed: the model comes back
    with its initial state dict loaded, no profile, empty histories. *)
Theorem zero_epochs {C : Collaborators} (dataloaders : Phase -> DataLoader)
  (num_classes : Z) (is_inception profiler : bool) (m : world) (threshold : Q) :
  train_model dataloaders 0 num_classes is_inception profiler m threshold
  = Ok {| out_model := load_state_dict (state_dict m) m;
          out_prof := None;
          out_val := {| acc := []; loss := []; targets := []; outputs := [] |};
          out_train := {| acc := []; loss := []; targets := []; outputs := [] |};
          out_stdout := [LogComplete; LogBestAcc (Fin 0.0); LogBestLoss 10000.0] |} /\
  state_dict (load_state_dict (state_dict m) m) = state_dict m.
Proof.
  split; [reflexivity | apply load_state_dict_spec].
Qed.

(** ** Sums *)


Lemma np_concatenate_Ok (arrays : list Tensor) (t : Tensor) :
  np_concatenate arrays = Ok t -> arrays <> [] /\ t = concat arrays.
Proof.
  destruct arrays as [| a arrays]; simpl; [discriminate |].
  destruct (same_width (a ++ concat arrays)); [| discriminate].
  intros H. injection H as <-. split; [discriminate | reflexivity].
Qed.

(** ** One batch, then all batches of a phase *)

Section PhaseFacts.

Context {C : Collaborators}.
Variable dataloaders : Phase -> DataLoader.
Variables num_epochs num_classes : Z.
Variables is_inception profiler : bool.

Local Abbreviation step := (batch_step dataloaders num_epochs is_inception profiler).
Local Abbreviation phase_run :=
  (run_phase dataloaders num_epochs num_classes is_inception profiler).

Lemma batch_step_Ok (epoch : nat) (phase : Phase) (st st' : PhaseState) (b : Batch) :
  step epoch phase st b = Ok st' ->
  exists c,
    batch_corrects is_inception phase (ph_model st, b) c /\
    ph_model st' = after_batch is_inception phase (ph_model st) b /\
    running_loss st' = running_loss st + weighted_loss is_inception phase (ph_model st, b) /\
    running_corrects st' = IntTensor (counter_value (running_corrects st) + c) /\
    targets_batch st' = targets_batch st ++ [batch_labels b] /\
    outputs_batch st' = outputs_batch st ++ [batch_preds is_inception phase (ph_model st, b)].
Proof.
  unfold batch_step, batch_corrects, batch_preds, batch_outputs, weighted_loss,
    batch_loss, batch_labels, batch_size, after_batch. simpl.
  destruct (forward_loss is_inception (ph_model st) phase (map fst b) (map snd b))
    as [outs l].
  intros H. bind_inv H. injection H as <-. simpl.
  exists a. repeat split; try assumption.
  destruct (running_corrects st); reflexivity.
Qed.

Lemma phase_trace_batches (phase : Phase) (w : world) (bs : list Batch) :
  map snd (phase_trace is_inception phase w bs) = bs.
Proof.
  revert w. induction bs as [| b bs IH]; intros w; simpl.
  - reflexivity.
  - rewrite IH. reflexivity.
Qed.

Lemma for_each_step_Ok (epoch : nat) (phase : Phase) (bs : list Batch)
  (st st' : PhaseState) :
  for_each (step epoch phase) bs st = Ok st' ->
  exists cs,
    Forall2 (batch_corrects is_inception phase)
      (phase_trace is_inception phase (ph_model st) bs) cs /\
    ph_model st' = phase_model is_inception phase (ph_model st) bs /\
    running_loss st'
    == running_loss st
       + Qsum (map (weighted_loss is_inception phase)
                 (phase_trace is_inception phase (ph_model st) bs)) /\
    counter_value (running_corrects st') = (counter_value (running_corrects st) + Zsum cs)%Z /\
    (bs = [] -> running_corrects st' = running_corrects st) /\
    (bs <> [] -> running_corrects st' = IntTensor (counter_value (running_corrects st'))) /\
    targets_batch st' = targets_batch st ++ map batch_labels bs /\
    outputs_batch st'
    = outputs_batch st
      ++ map (batch_preds is_inception phase)
           (phase_trace is_inception phase (ph_model st) bs).
Proof.
  revert st. induction bs as [| b bs IH]; intros st H; simpl in H.
  - injection H as <-. exists []. simpl.
    rewrite !app_nil_r, Qplus_0_r, Z.add_0_r.
    repeat split; try reflexivity; try constructor. congruence.
  - bind_inv H.
    apply batch_step_Ok in Ha.
    destruct Ha as [c [Hc [Hm [Hl [Hr [Ht Ho]]]]]].
    apply IH in H.
    destruct H as [cs [Hcs [Hm' [Hl' [Hv' [Heq' [Hne' [Ht' Ho']]]]]]]].
    exists (c :: cs). simpl. rewrite <- Hm.
    split; [constructor; assumption |].
    split; [exact Hm' |].
    split; [rewrite Hl', Hl; symmetry; apply Qplus_assoc |].
    split; [rewrite Hv', Hr; simpl; lia |].
    split; [discriminate |].
    split.
    + intros _. destruct bs as [| b' bs'].
      * rewrite (Heq' eq_refl), Hr. reflexivity.
      * apply Hne'. discriminate.
    + rewrite Ht', Ho', Ht, Ho, <- !app_assoc. split; reflexivity.
Qed.

End PhaseFacts.

(** ** One phase *)

Section PhaseRun.

Context {C : Collaborators}.
Variable dataloaders : Phase -> DataLoader.
Variables num_epochs num_classes : Z.
Variables is_inception profiler : bool.

Local Abbreviation phase_run :=
  (run_phase dataloaders num_epochs num_classes is_inception profiler).
Local Abbreviation trace_of phase st epoch :=
  (phase_trace is_inception phase (model st) (batches (dataloaders phase) epoch)).

Lemma py_div_Ok (x q : Q) (n : Z) :
  py_div x n = Ok q -> n <> 0%Z /\ q = x / inject_Z n.
Proof.
  unfold py_div. destruct (n =? 0)%Z eqn:E; [discriminate |].
  intros H. injection H as <-. split; [| reflexivity].
  apply Z.eqb_neq. exact E.
Qed.

(** What a phase that completes has computed. *)
Lemma run_phase_Ok (epoch : nat) (phase : Phase) (st st' : LoopState) :
  phase_run epoch phase st = Ok st' ->
  exists epoch_loss cs,
    batches (dataloaders phase) epoch <> [] /\
    dataset_len (dataloaders phase) <> 0%nat /\
    Forall2 (batch_corrects is_inception phase) (trace_of phase st epoch) cs /\
    epoch_loss
    == Qsum (map (weighted_loss is_inception phase) (trace_of phase st epoch))
       / inject_Z (Z.of_nat (dataset_len (dataloaders phase))) /\
    model st' = phase_model is_inception phase (model st) (batches (dataloaders phase) epoch) /\
    best_loss st'
    = (if is_val phase && Qltb epoch_loss (best_loss st) then epoch_loss else best_loss st) /\
    best_acc st'
    = (if is_val phase && Qltb epoch_loss (best_loss st)
       then double_div (Zsum cs) (Z.of_nat (dataset_len (dataloaders phase)) * num_classes)
       else best_acc st) /\
    best_model_wts st'
    = (if is_val phase && Qltb epoch_loss (best_loss st)
       then state_dict (model st') else best_model_wts st) /\
    history_of phase st'
    = append_history (history_of phase st)
        (double_div (Zsum cs) (Z.of_nat (dataset_len (dataloaders phase)) * num_classes))
        epoch_loss
        (concat (map batch_labels (batches (dataloaders phase) epoch)))
        (concat (map (batch_preds is_inception phase) (trace_of phase st epoch))) /\
    (phase = Train -> val_history st' = val_history st) /\
    (phase = Val -> train_history st' = train_history st).
Proof.
  unfold run_phase. intros H.
  bind_inv H. rename a into ps.
  bind_inv H. rename a into epoch_loss.
  bind_inv H. rename a into corrects.
  bind_inv H. rename a into outputs_all.
  bind_inv H. rename a into targets_all.
  apply for_each_step_Ok in Ha.
  destruct Ha as [cs [Hcs [Hm [Hl [Hv [Heq [Hne [Ht Ho]]]]]]]].
  simpl in Hm, Hl, Hv, Heq, Hne, Ht, Ho.
  apply py_div_Ok in Ha0. destruct Ha0 as [Hlen ->].
  assert (Hbs : batches (dataloaders phase) epoch <> []).
  { intros E. rewrite (Heq E) in Ha1. discriminate Ha1. }
  rewrite (Hne Hbs) in Ha1. simpl in Ha1. injection Ha1 as <-.
  apply np_concatenate_Ok in Ha2, Ha3.
  destruct Ha2 as [_ ->]. destruct Ha3 as [_ ->].
  injection H as <-. simpl.
  rewrite Hv, Ht, Ho. simpl (0 + _)%Z.
  exists (running_loss ps / inject_Z (Z.of_nat (dataset_len (dataloaders phase)))), cs.
  split; [exact Hbs |].
  split; [lia |].
  split; [exact Hcs |].
  split; [rewrite Hl, Qplus_0_l; reflexivity |].
  split; [exact Hm |].
  repeat split; try reflexivity.
  - destruct phase; reflexivity.
  - intros ->. reflexivity.
  - intros ->. reflexivity.
Qed.

End PhaseRun.

(** ** Counting positions by index *)

Lemma count_below_front (n : nat) (f : nat -> bool) :
  count_below (S n) f
  = ((if f O then 1 else 0) + count_below n (fun j => f (S j)))%Z.
Proof.
  induction n as [| n IH].
  - simpl. lia.
  - change (count_below (S (S n)) f)
      with (count_below (S n) f + (if f (S n) then 1 else 0))%Z.
    rewrite IH. simpl. lia.
Qed.

Lemma count_below_ext (n : nat) (f g : nat -> bool) :
  (forall j, (j < n)%nat -> f j = g j) -> count_below n f = count_below n g.
Proof.
  induction n as [| n IH]; intros H; simpl.
  - reflexivity.
  - rewrite IH by (intros j Hj; apply H; lia). rewrite (H n) by lia. reflexivity.
Qed.

Lemma sum_below_front (n : nat) (f : nat -> option Z) :
  sum_below (S n) f
  = match f O, sum_below n (fun k => f (S k)) with
    | Some a, Some b => Some (a + b)%Z
    | _, _ => None
    end.
Proof.
  induction n as [| n IH].
  - simpl. destruct (f O); [f_equal; lia | reflexivity].
  - change (sum_below (S (S n)) f)
      with (match sum_below (S n) f, f (S n) with
            | Some a, Some b => Some (a + b)%Z
            | _, _ => None
            end).
    rewrite IH. simpl.
    destruct (f O), (sum_below n (fun k => f (S k))), (f (S n));
      try reflexivity. f_equal. lia.
Qed.

Lemma sum_below_ext (n : nat) (f g : nat -> option Z) :
  (forall k, (k < n)%nat -> f k = g k) -> sum_below n f = sum_below n g.
Proof.
  induction n as [| n IH]; intros H; simpl.
  - reflexivity.
  - rewrite IH by (intros k Hk; apply H; lia). rewrite (H n) by lia. reflexivity.
Qed.

Lemma eq_count_cons (x y : Q) (p l : Row) :
  eq_count (x :: p) (y :: l)
  = ((if Qeq_bool x y then 1 else 0) + eq_count p l)%Z.
Proof.
  unfold eq_count. simpl. destruct (Qeq_bool x y); simpl length; lia.
Qed.

(** [eq_count] counts the indices at which the two rows agree. *)
Lemma eq_count_index (p l : Row) :
  length p = length l ->
  eq_count p l = count_below (length p) (fun j => Qeq_bool (nth j p 0) (nth j l 0)).
Proof.
  revert l. induction p as [| x p IH]; intros [| y l] E; try discriminate E.
  - reflexivity.
  - rewrite eq_count_cons. simpl length. rewrite count_below_front.
    rewrite IH by (simpl in E; lia). reflexivity.
Qed.

Lemma nth_repeat_below {A : Type} (x d : A) (n j : nat) :
  (j < n)%nat -> nth j (repeat x n) d = x.
Proof.
  revert j. induction n as [| n IH]; intros [| j] H; simpl; try lia.
  - reflexivity.
  - apply IH. lia.
Qed.

Lemma stretched_many {A : Type} (d : A) (l : list A) (k : nat) :
  length l <> 1%nat -> stretched d l k = nth k l d.
Proof.
  intros H. unfold stretched. apply Nat.eqb_neq in H. rewrite H. reflexivity.
Qed.

Lemma stretched_one {A : Type} (d x : A) (k : nat) : stretched d [x] k = x.
Proof. reflexivity. Qed.

Lemma stretched_below {A : Type} (d : A) (l : list A) (k : nat) :
  (k < length l)%nat -> stretched d l k = nth k l d.
Proof.
  intros H. unfold stretched. destruct (Nat.eqb (length l) 1) eqn:E; [| reflexivity].
  apply Nat.eqb_eq in E. replace k with O by lia. reflexivity.
Qed.

(** [row_matches] counts the positions at which two rows agree. *)
Lemma row_matches_positions (p l : Row) :
  row_matches p l
  = match row_equal_positions p l with
    | Some c => Ok c
    | None => Raise RuntimeError
    end.
Proof.
  unfold row_matches, row_equal_positions, broadcast_len.
  destruct (Nat.eqb (length p) (length l)) eqn:E.
  - apply Nat.eqb_eq in E. rewrite eq_count_index by exact E. f_equal.
    apply count_below_ext. intros j Hj.
    rewrite !stretched_below by lia. reflexivity.
  - apply Nat.eqb_neq in E.
    destruct p as [| x [| x' p]].
    + destruct l as [| y [| y' l]]; simpl in E |- *; try contradiction; reflexivity.
    + simpl (Nat.eqb (length [x]) 1). cbv iota. f_equal.
      rewrite eq_count_index by apply repeat_length. rewrite repeat_length.
      apply count_below_ext. intros j Hj.
      rewrite nth_repeat_below by exact Hj. rewrite stretched_one.
      rewrite stretched_many by (simpl in E; lia). reflexivity.
    + destruct l as [| y [| y' l]].
      * reflexivity.
      * simpl (Nat.eqb (length (x :: x' :: p)) 1).
        simpl (Nat.eqb (length [y]) 1). cbv iota. f_equal.
        rewrite eq_count_index by (symmetry; apply repeat_length).
        apply count_below_ext. intros j Hj.
        rewrite nth_repeat_below by exact Hj. rewrite stretched_one.
        rewrite stretched_many by (simpl; lia). reflexivity.
      * reflexivity.
Qed.

Lemma rows_matches_index (p l : Tensor) :
  length p = length l ->
  rows_matches (combine p l)
  = match sum_below (length p)
            (fun k => row_equal_positions (nth k p []) (nth k l [])) with
    | Some c => Ok c
    | None => Raise RuntimeError
    end.
Proof.
  revert l. induction p as [| r p IH]; intros [| s l] E; try discriminate E.
  - reflexivity.
  - simpl combine. simpl length. rewrite sum_below_front.
    simpl rows_matches. rewrite row_matches_positions.
    rewrite IH by (simpl in E; lia). simpl nth.
    destruct (row_equal_positions r s) as [c |]; simpl; [| reflexivity].
    destruct (sum_below (length p)
                (fun k => row_equal_positions (nth k p []) (nth k l [])));
      reflexivity.
Qed.

(** [tensor_matches] counts the positions at which two tensors agree. *)
Lemma tensor_matches_positions (p l : Tensor) :
  tensor_matches p l
  = match equal_positions p l with
    | Some c => Ok c
    | None => Raise RuntimeError
    end.
Proof.
  unfold tensor_matches, equal_positions, broadcast_len.
  destruct (Nat.eqb (length p) (length l)) eqn:E.
  - apply Nat.eqb_eq in E. rewrite rows_matches_index by exact E.
    rewrite (@sum_below_ext (length p)
               (fun k => row_equal_positions (nth k p []) (nth k l []))
               (fun k => row_equal_positions (stretched [] p k) (stretched [] l k)));
      [reflexivity |].
    intros k Hk. rewrite (stretched_below [] p) by exact Hk.
    rewrite (stretched_below [] l) by (unfold Row in *; lia). reflexivity.
  - apply Nat.eqb_neq in E.
    destruct p as [| r [| r' p]].
    + destruct l as [| s [| s' l]]; simpl in E |- *; try contradiction; reflexivity.
    + simpl (Nat.eqb (length [r]) 1). cbv iota.
      rewrite rows_matches_index by apply repeat_length. rewrite repeat_length.
      rewrite (@sum_below_ext (length l)
                 (fun k => row_equal_positions (nth k (repeat r (length l)) [])
                             (nth k l []))
                 (fun k => row_equal_positions (stretched [] [r] k) (stretched [] l k)));
        [reflexivity |].
      intros k Hk. rewrite nth_repeat_below by exact Hk. rewrite stretched_one.
      rewrite stretched_many by (unfold Row in *; simpl in E; lia).
      reflexivity.
    + destruct l as [| s [| s' l]].
      * reflexivity.
      * simpl (Nat.eqb (length (r :: r' :: p)) 1).
        simpl (Nat.eqb (length [s]) 1). cbv iota.
        rewrite rows_matches_index by (symmetry; apply repeat_length).
        rewrite (@sum_below_ext (length (r :: r' :: p))
                   (fun k => row_equal_positions (nth k (r :: r' :: p) [])
                               (nth k (repeat s (length (r :: r' :: p))) []))
                   (fun k => row_equal_positions (stretched [] (r :: r' :: p) k)
                               (stretched [] [s] k)));
          [reflexivity |].
        intros k Hk. rewrite nth_repeat_below by exact Hk. rewrite stretched_one.
        rewrite stretched_many by discriminate. reflexivity.
      * reflexivity.
Qed.

Lemma tensor_matches_Ok_positions (p l : Tensor) (c : Z) :
  tensor_matches p l = Ok c -> equal_positions p l = Some c.
Proof.
  rewrite tensor_matches_positions.
  destruct (equal_positions p l) as [c' |]; intros H; [| discriminate H].
  injection H as <-. reflexivity.
Qed.

(** ** The aggregates of a phase *)

(** C5: [epoch_loss] is the sum of the batch losses weighted by the batch
    sizes over the dataset size, [epoch_acc] the total, over the batches, of
    the number of positions at which the prediction equals the label, over
    dataset size times [num_classes]. *)
Theorem epoch_aggregates {C : Collaborators} (dataloaders : Phase -> DataLoader)
  (num_epochs num_classes : Z) (is_inception profiler : bool)
  (epoch : nat) (phase : Phase) (st st' : LoopState) :
  run_phase dataloaders num_epochs num_classes is_inception profiler epoch phase st = Ok st' ->
  exists epoch_loss epoch_acc cs,
    Forall2 (positions_agree is_inception phase)
      (epoch_trace dataloaders is_inception phase epoch (model st)) cs /\
    epoch_loss
    == Qsum (map (weighted_loss is_inception phase)
               (epoch_trace dataloaders is_inception phase epoch (model st)))
       / inject_Z (Z.of_nat (dataset_len (dataloaders phase))) /\
    epoch_acc
    = double_div (Zsum cs) (Z.of_nat (dataset_len (dataloaders phase)) * num_classes) /\
    (num_classes <> 0%Z ->
     epoch_acc
     = Fin (inject_Z (Zsum cs)
            / inject_Z (Z.of_nat (dataset_len (dataloaders phase)) * num_classes))) /\
    loss (history_of phase st') = loss (history_of phase st) ++ [epoch_loss] /\
    acc (history_of phase st') = acc (history_of phase st) ++ [epoch_acc].
Proof.
  intros H. apply run_phase_Ok in H.
  destruct H as [epoch_loss [cs [_ [Hlen [Hcs [Hloss [_ [_ [_ [_ [Hhist _]]]]]]]]]]].
  exists epoch_loss.
  exists (double_div (Zsum cs) (Z.of_nat (dataset_len (dataloaders phase)) * num_classes)).
  exists cs.
  split.
  { unfold epoch_trace. eapply Forall2_impl; [| exact Hcs].
    intros wb c Hc. apply tensor_matches_Ok_positions. exact Hc. }
  split; [exact Hloss |]. split; [reflexivity |].
  rewrite Hhist. simpl.
  split; [| split; reflexivity].
  intros Hnc. unfold double_div.
  destruct (Z.of_nat (dataset_len (dataloaders phase)) * num_classes =? 0)%Z eqn:E;
    [| reflexivity].
  apply Z.eqb_eq in E. lia.
Qed.

Lemma epoch_aggregates_witness :
  exists st',
    run_phase (C := Example.toy) Demo.mixed_loaders 1 2 false false 0 Train
      Example.st0 = Ok st' /\
    exists epoch_loss epoch_acc cs,
      Forall2 (positions_agree (C := Example.toy) false Train)
        (epoch_trace (C := Example.toy) Demo.mixed_loaders false Train 0
           (model Example.st0)) cs /\
      cs = [3; 2]%Z /\
      loss (train_history st') = [epoch_loss] /\
      acc (train_history st') = [epoch_acc] /\
      epoch_loss == (0.6 * 2 + 0.3 * 1) / 3 /\
      epoch_acc = Fin (5 # 6).
Proof.
  eexists. split; [vm_compute; reflexivity |].
  edestruct (@epoch_aggregates Example.toy Demo.mixed_loaders 1 2 false false
               0%nat Train Example.st0)
    as [epoch_loss [epoch_acc [cs [Hcs [_ [Hacc [_ [Hl Ha]]]]]]]];
    [vm_compute; reflexivity |].
  exists epoch_loss, epoch_acc, cs.
  assert (Hcount : cs = [3; 2]%Z).
  { inversion Hcs as [| wb1 c1 t1 cs1 H1 Hrest1]; subst.
    inversion Hrest1 as [| wb2 c2 t2 cs2 H2 Hrest2]; subst.
    inversion Hrest2; subst.
    vm_compute in H1. vm_compute in H2.
    injection H1 as <-. injection H2 as <-. reflexivity. }
  split; [exact Hcs |]. split; [exact Hcount |].
  split; [exact Hl |]. split; [exact Ha |].
  vm_compute in Hl. injection Hl as <-.
  rewrite Hacc, Hcount.
  split; reflexivity.
Defined.

(** ** Bounds on the count of matching positions *)

Lemma eq_count_bounds (p l : Row) :
  (0 <= eq_count p l <= Z.of_nat (length p))%Z.
Proof.
  unfold eq_count. split; [lia |].
  apply inj_le.
  etransitivity; [apply filter_length_le |].
  rewrite length_combine. lia.
Qed.

Lemma row_matches_bounds (p l : Row) (c : Z) :
  row_matches p l = Ok c -> length p = length l ->
  (0 <= c <= Z.of_nat (length p))%Z.
Proof.
  unfold row_matches. intros H E.
  rewrite E, Nat.eqb_refl in H. injection H as <-.
  apply eq_count_bounds.
Qed.

Lemma rows_matches_bounds (n : Z) (rows : list (Row * Row)) (c : Z) :
  rows_matches rows = Ok c ->
  Forall (fun pl => Z.of_nat (length (fst pl)) = n /\ Z.of_nat (length (snd pl)) = n) rows ->
  (0 <= c <= n * Z.of_nat (length rows))%Z.
Proof.
  revert c. induction rows as [| [p l] rows IH]; intros c H Hshape.
  - simpl in H. injection H as <-. simpl. lia.
  - simpl in H. bind_inv H. bind_inv H. injection H as <-.
    apply Forall_cons_iff in Hshape. destruct Hshape as [[Hp Hl] Hrest].
    simpl in Hp, Hl.
    apply row_matches_bounds in Ha; [| lia].
    specialize (IH _ Ha0 Hrest).
    simpl (length _). lia.
Qed.

Lemma Forall_combine_widths (n : Z) (p l : Tensor) :
  Forall (fun r => Z.of_nat (length r) = n) p ->
  Forall (fun r => Z.of_nat (length r) = n) l ->
  Forall (fun pl => Z.of_nat (length (fst pl)) = n /\ Z.of_nat (length (snd pl)) = n)
    (combine p l).
Proof.
  intros Hp. revert l. induction Hp as [| r p Hr Hp IH]; intros l Hl; simpl.
  - constructor.
  - destruct Hl as [| r' l Hr' Hl]; constructor; [split; assumption | apply IH; assumption].
Qed.

Lemma tensor_matches_bounds (n : Z) (p l : Tensor) (c : Z) :
  tensor_matches p l = Ok c -> length p = length l ->
  Forall (fun r => Z.of_nat (length r) = n) p ->
  Forall (fun r => Z.of_nat (length r) = n) l ->
  (0 <= c <= n * Z.of_nat (length p))%Z.
Proof.
  unfold tensor_matches. intros H E Hp Hl.
  rewrite E, Nat.eqb_refl in H.
  apply (rows_matches_bounds (n := n)) in H; [| apply Forall_combine_widths; assumption].
  rewrite length_combine in H. lia.
Qed.

Section BatchShapes.

Context {C : Collaborators}.
Variable is_inception : bool.




Lemma corrects_bounds (n : Z) (phase : Phase) (trace : list (world * Batch)) (cs : list Z) :
  Forall2 (batch_corrects is_inception phase) trace cs ->
  Forall (fun wb =>
            Forall (fun r => Z.of_nat (length r) = n) (batch_preds is_inception phase wb) /\
            Forall (fun r => Z.of_nat (length r) = n) (batch_labels (snd wb))) trace ->
  Forall (fun wb =>
            length (batch_preds is_inception phase wb) = batch_size (snd wb) /\
            length (batch_labels (snd wb)) = batch_size (snd wb)) trace ->
  (0 <= Zsum cs <= n * Z.of_nat (nat_sum (map batch_size (map snd trace))))%Z.
Proof.
  intros H. induction H as [| wb c trace cs Hc Hrest IH]; intros Hshape Hrows; simpl.
  - lia.
  - apply Forall_cons_iff in Hshape. destruct Hshape as [[Hp Hl] Hshape'].
    apply Forall_cons_iff in Hrows. destruct Hrows as [[Hrp Hrl] Hrows'].
    specialize (IH Hshape' Hrows').
    unfold batch_corrects in Hc.
    apply (tensor_matches_bounds (n := n)) in Hc; try assumption.
    + rewrite Hrp in Hc. lia.
    + rewrite Hrp, Hrl. reflexivity.
Qed.

End BatchShapes.

Lemma unit_fraction (a b : Z) :
  (0 <= a <= b)%Z -> (0 < b)%Z -> in_unit_interval (double_div a b).
Proof.
  intros Ha Hb. unfold double_div.
  destruct (b =? 0)%Z eqn:E; [apply Z.eqb_eq in E; lia |].
  simpl.
  assert (Hpos : 0 < inject_Z b).
  { change (inject_Z 0 < inject_Z b). rewrite <- Zlt_Qlt. exact Hb. }
  split.
  - apply Qle_shift_div_l; [exact Hpos |].
    rewrite Qmult_0_l. change (inject_Z 0 <= inject_Z a). rewrite <- Zle_Qle. lia.
  - apply Qle_shift_div_r; [exact Hpos |].
    rewrite Qmult_1_l. rewrite <- Zle_Qle. lia.
Qed.

(** C6, with the shape conditions it needs: when the dataset size is the
    sum of the batch sizes, [num_classes] is at least 1 and every prediction
    and label tensor has one row per example of its batch, each row with
    [num_classes] entries in {0,1}, [epoch_acc] is in [0, 1]. *)
Theorem epoch_acc_in_unit_interval {C : Collaborators}
  (dataloaders : Phase -> DataLoader) (num_epochs num_classes : Z)
  (is_inception profiler : bool) (epoch : nat) (phase : Phase) (st st' : LoopState) :
  run_phase dataloaders num_epochs num_classes is_inception profiler epoch phase st = Ok st' ->
  binary_batches dataloaders is_inception phase epoch (model st) ->
  sizes_add_up dataloaders phase epoch ->
  (1 <= num_classes)%Z ->
  shaped_batches dataloaders is_inception num_classes phase epoch (model st) ->
  rows_per_example dataloaders is_inception phase epoch (model st) ->
  appended_unit_acc (history_of phase st) (history_of phase st').
Proof.
  intros H _ Hsizes Hnc Hshape Hrows. apply run_phase_Ok in H.
  destruct H as [epoch_loss [cs [_ [Hlen [Hcs [_ [_ [_ [_ [_ [Hhist _]]]]]]]]]]].
  eexists. split; [rewrite Hhist; reflexivity |].
  apply (corrects_bounds (n := num_classes)) in Hcs; [| exact Hshape | exact Hrows].
  unfold epoch_trace in Hcs. rewrite phase_trace_batches in Hcs.
  unfold sizes_add_up in Hsizes. rewrite <- Hsizes in Hcs.
  apply unit_fraction; nia.
Qed.

(** Splits a [Forall] over an explicit list into its members. *)
Ltac forall_members :=
  repeat first [apply Forall_nil | apply Forall_cons | apply conj].

Lemma epoch_acc_in_unit_interval_witness :
  exists st',
    run_phase (C := Example.toy) Demo.mixed_loaders 1 2 false false 0 Train
      Example.st0 = Ok st' /\
    appended_unit_acc (history_of Train Example.st0) (history_of Train st').
Proof.
  eexists. split; [vm_compute; reflexivity |].
  eapply (@epoch_acc_in_unit_interval Example.toy Demo.mixed_loaders 1 2 false false
            0%nat Train Example.st0).
  - vm_compute. reflexivity.
  - cbv - [binary]. forall_members; first [left; reflexivity | right; reflexivity].
  - reflexivity.
  - lia.
  - cbv. forall_members; reflexivity.
  - cbv. forall_members; reflexivity.
Defined.

(** C6 as stated fails: with two-class rows and [num_classes = 1] every
    stated precondition holds and [epoch_acc] is 2. *)
Lemma epoch_acc_above_one :
  ~ (forall st',
       run_phase (C := Example.toy) Example.two_class_loaders 1 1 false false 0 Train
         Example.st0 = Ok st' ->
       binary_batches (C := Example.toy) Example.two_class_loaders false Train 0
         (model Example.st0) ->
       sizes_add_up (C := Example.toy) Example.two_class_loaders Train 0 ->
       appended_unit_acc (history_of Train Example.st0) (history_of Train st')).
Proof.
  intros H. edestruct H as [epoch_acc [Ha Hin]].
  - vm_compute. reflexivity.
  - cbv - [binary]. forall_members; first [left; reflexivity | right; reflexivity].
  - reflexivity.
  - vm_compute in Ha. injection Ha as <-.
    destruct Hin as [_ Hin]. apply Hin. reflexivity.
Qed.

(** ** One epoch, then all epochs *)

Section EpochFacts.

Context {C : Collaborators}.
Variable dataloaders : Phase -> DataLoader.
Variables num_epochs num_classes : Z.
Variables is_inception profiler : bool.

Local Abbreviation phase_run :=
  (run_phase dataloaders num_epochs num_classes is_inception profiler).
Local Abbreviation body :=
  (epoch_body dataloaders num_epochs num_classes is_inception profiler).
Local Abbreviation epochs :=
  (run_epochs dataloaders num_epochs num_classes is_inception profiler).

Lemma epoch_body_Ok (epoch : nat) (st s : LoopState) :
  body epoch st = Ok s ->
  exists st1,
    phase_run epoch Train (epoch_begin num_epochs epoch st) = Ok st1 /\
    phase_run epoch Val st1 = Ok s.
Proof.
  unfold epoch_body. intros H. bind_inv H. exists a. split; assumption.
Qed.

(** What an epoch does to the best checkpoint. *)
Lemma epoch_body_best (epoch : nat) (st s : LoopState) :
  body epoch st = Ok s ->
  exists epoch_loss,
    loss (val_history s) = loss (val_history st) ++ [epoch_loss] /\
    best_loss s = (if Qltb epoch_loss (best_loss st) then epoch_loss else best_loss st) /\
    best_model_wts s
    = (if Qltb epoch_loss (best_loss st) then state_dict (model s) else best_model_wts st) /\
    (Qltb epoch_loss (best_loss st) = false -> best_acc s = best_acc st).
Proof.
  intros H. apply epoch_body_Ok in H. destruct H as [st1 [Htrain Hval]].
  apply run_phase_Ok in Htrain.
  destruct Htrain as [l1 [cs1 [_ [_ [_ [_ [_ [Hbl1 [Hba1 [Hbw1 [_ [Hv1 _]]]]]]]]]]]].
  simpl in Hbl1, Hba1, Hbw1. specialize (Hv1 eq_refl). simpl in Hv1.
  apply run_phase_Ok in Hval.
  destruct Hval as [l2 [cs2 [_ [_ [_ [_ [_ [Hbl2 [Hba2 [Hbw2 [Hh2 _]]]]]]]]]]].
  simpl in Hbl2, Hba2, Hbw2, Hh2.
  rewrite Hbl1 in Hbl2, Hba2, Hbw2. rewrite Hba1 in Hba2. rewrite Hbw1 in Hbw2.
  exists l2. rewrite Hh2, Hv1. simpl.
  split; [reflexivity |]. split; [exact Hbl2 |]. split; [exact Hbw2 |].
  intros E. rewrite E in Hba2. exact Hba2.
Qed.


Lemma run_epochs_snoc (count epoch : nat) (st : LoopState) :
  epochs (S count) epoch st
  = st1 <- epochs count epoch st ;;
    s <- body (epoch + count)%nat st1 ;;
    Ok (epoch_end s).
Proof.
  revert epoch st. induction count as [| count IH]; intros epoch st.
  - simpl. rewrite Nat.add_0_r.
    destruct (body epoch st); reflexivity.
  - change (epochs (S (S count)) epoch st)
      with (st' <- body epoch st ;; epochs (S count) (S epoch) (epoch_end st')).
    change (epochs (S count) epoch st)
      with (st' <- body epoch st ;; epochs count (S epoch) (epoch_end st')).
    destruct (body epoch st) as [st' | e]; simpl; [| reflexivity].
    rewrite <- Nat.add_succ_comm. apply IH.
Qed.

(** Induction over the epochs of a run. *)
Lemma run_epochs_invariant (P : nat -> LoopState -> Prop) (m : world) :
  P 0%nat (initial_state m) ->
  (forall k st s,
      epochs k 0%nat (initial_state m) = Ok st -> P k st ->
      body k st = Ok s -> P (S k) (epoch_end s)) ->
  forall k st, epochs k 0%nat (initial_state m) = Ok st -> P k st.
Proof.
  intros Hinit Hstep. induction k as [| k IH]; intros st H.
  - simpl in H. injection H as <-. exact Hinit.
  - rewrite run_epochs_snoc in H. bind_inv H. bind_inv H. injection H as <-.
    simpl in Ha0. eapply Hstep; eauto.
Qed.

End EpochFacts.

(** ** The histories *)




(** ** The best checkpoint *)

Section BestCheckpoint.

Context {C : Collaborators}.
Variable dataloaders : Phase -> DataLoader.
Variables num_epochs num_classes : Z.
Variables is_inception profiler : bool.
Variable m : world.

Local Abbreviation body :=
  (epoch_body dataloaders num_epochs num_classes is_inception profiler).
Local Abbreviation epochs :=
  (run_epochs dataloaders num_epochs num_classes is_inception profiler).
Local Abbreviation untouched := (no_checkpoint_yet m).
Local Abbreviation taken_at :=
  (checkpoint_at dataloaders num_epochs num_classes is_inception profiler m).

Lemma nth_snoc_old (L : list Q) (l : Q) (i : nat) :
  (i < length L)%nat -> nth i (L ++ [l]) 0 = nth i L 0.
Proof. intros H. apply app_nth1. exact H. Qed.

Lemma nth_snoc_new (L : list Q) (l : Q) : nth (length L) (L ++ [l]) 0 = l.
Proof. rewrite app_nth2 by lia. rewrite Nat.sub_diag. reflexivity. Qed.

(** A new strict minimum [l] at the end is the first minimum. *)
Lemma first_minimum_new (L : list Q) (l bound : Q) :
  l < bound -> (forall i, (i < length L)%nat -> bound <= nth i L 0) ->
  first_minimum (L ++ [l]) (length L).
Proof.
  intros Hl Hbound. unfold first_minimum.
  rewrite length_app, nth_snoc_new. simpl.
  split; [lia |]. split.
  - intros i Hi. destruct (Nat.eq_dec i (length L)) as [-> | Hne].
    + rewrite nth_snoc_new. apply Qle_refl.
    + rewrite nth_snoc_old by lia. apply Qlt_le_weak.
      eapply Qlt_le_trans; [exact Hl | apply Hbound; lia].
  - intros i Hi. rewrite nth_snoc_old by lia.
    eapply Qlt_le_trans; [exact Hl | apply Hbound; lia].
Qed.

(** A loss that does not beat the first minimum leaves it the first minimum. *)
Lemma first_minimum_kept (L : list Q) (l : Q) (j : nat) :
  first_minimum L j -> nth j L 0 <= l -> first_minimum (L ++ [l]) j.
Proof.
  intros [Hj [Hmin Hfirst]] Hl. unfold first_minimum.
  rewrite length_app. simpl. rewrite nth_snoc_old by exact Hj.
  split; [lia |]. split.
  - intros i Hi. destruct (Nat.eq_dec i (length L)) as [-> | Hne].
    + rewrite nth_snoc_new. exact Hl.
    + rewrite nth_snoc_old by lia. apply Hmin. lia.
  - intros i Hi. rewrite nth_snoc_old by lia. apply Hfirst. exact Hi.
Qed.

(** After [k] epochs either no checkpoint was taken, or the checkpoint is the
    one of the first epoch that reached the least validation loss. *)
Lemma best_invariant (k : nat) (st : LoopState) :
  epochs k 0%nat (initial_state m) = Ok st ->
  length (loss (val_history st)) = k /\
  (untouched st \/ exists j, taken_at st j).
Proof.
  revert k st.
  apply run_epochs_invariant
    with (P := fun k st => length (loss (val_history st)) = k /\
                           (untouched st \/ exists j, taken_at st j)).
  - split; [reflexivity |]. left.
    unfold no_checkpoint_yet. simpl. repeat split. intros l [].
  - intros k st s Hrun [Hlen Hinv] Hbody.
    pose proof Hbody as Hbest. apply epoch_body_best in Hbest.
    destruct Hbest as [l [HL [Hbl [Hbw Hba]]]].
    unfold no_checkpoint_yet, checkpoint_at. simpl.
    rewrite HL, length_app, Hlen. simpl. split; [lia |].
    assert (Hbound : best_loss st <= 10000.0 /\
                     forall i, (i < length (loss (val_history st)))%nat ->
                               best_loss st <= nth i (loss (val_history st)) 0).
    { destruct Hinv as [[Hb [_ [_ Hall]]] | [j [[Hj [Hmin _]] [_ [Hb Hlt]]]]].
      - rewrite Hb. split; [apply Qle_refl |].
        intros i Hi. apply Hall. apply nth_In. exact Hi.
      - split; [apply Qlt_le_weak; exact Hlt |].
        intros i Hi. rewrite Hb. apply Hmin. exact Hi. }
    destruct Hbound as [Hsentinel Hbound].
    destruct (Qltb l (best_loss st)) eqn:E.
    + apply Qltb_lt in E. right. exists k.
      rewrite Hbl, Hbw, <- Hlen, nth_snoc_new.
      split; [eapply first_minimum_new; [exact E | exact Hbound] |].
      split; [| split; [reflexivity | eapply Qlt_le_trans; eassumption]].
      exists st, s. rewrite Hlen. repeat split; assumption.
    + apply Qltb_ge in E. rewrite Hbl, Hbw, (Hba eq_refl).
      destruct Hinv as [[Hb [Ha [Hw Hall]]] | [j [Hmin [Hcp [Hb Hlt]]]]].
      * left. repeat split; try assumption.
        intros l' Hin. apply in_app_or in Hin. destruct Hin as [Hin | [<- | []]].
        -- apply Hall. exact Hin.
        -- rewrite <- Hb. exact E.
      * right. exists j.
        assert (Hj : (j < length (loss (val_history st)))%nat) by apply Hmin.
        rewrite nth_snoc_old by exact Hj.
        split; [apply first_minimum_kept; [exact Hmin | rewrite <- Hb; exact E] |].
        repeat split; assumption.
Qed.

End BestCheckpoint.

(** C1, for a run in which some validation loss is below the initial
    [best_loss]: every epoch leaves [best_loss] at the minimum of its old value
    and the epoch's validation loss, a loss that is not strictly less leaves
    the checkpoint alone, and the returned model carries the state dict copied
    at the first epoch that reached the least validation loss. *)
Theorem best_checkpoint_returned {C : Collaborators} (dataloaders : Phase -> DataLoader)
  (num_epochs num_classes : Z) (is_inception profiler : bool) :
  (forall epoch st s,
      epoch_body dataloaders num_epochs num_classes is_inception profiler epoch st = Ok s ->
      exists epoch_loss,
        loss (val_history s) = loss (val_history st) ++ [epoch_loss] /\
        best_loss s = Qmin (best_loss st) epoch_loss /\
        (best_loss st <= epoch_loss -> best_model_wts s = best_model_wts st) /\
        (epoch_loss < best_loss st -> best_model_wts s = state_dict (model s))) /\
  (forall m threshold r,
      train_model dataloaders num_epochs num_classes is_inception profiler m threshold = Ok r ->
      (exists l, In l (loss (out_val r)) /\ l < 10000.0) ->
      exists j p,
        first_minimum (loss (out_val r)) j /\
        checkpoint_of_epoch dataloaders num_epochs num_classes is_inception profiler m j p /\
        state_dict (out_model r) = p /\
        (exists w, out_model r = load_state_dict p w) /\
        (exists lines,
            out_stdout r = lines ++ [LogBestLoss (nth j (loss (out_val r)) 0)])).
Proof.
  split.
  - intros epoch st s H.
    apply epoch_body_best in H. destruct H as [l [HL [Hbl [Hbw _]]]].
    exists l. split; [exact HL |].
    split; [rewrite Hbl; apply improved_min |]. split.
    + intros Hle. apply Qltb_ge in Hle. rewrite Hle in Hbw. exact Hbw.
    + intros Hlt. apply Qltb_lt in Hlt. rewrite Hlt in Hbw. exact Hbw.
  - intros m threshold r H [l [Hin Hl]]. unfold train_model in H.
    bind_inv H. injection H as <-. simpl in Hin |- *.
    apply best_invariant in Ha. destruct Ha as [_ [[_ [_ [_ Hall]]] | [j Hj]]].
    + exfalso. apply (Qlt_not_le _ _ Hl). apply Hall. exact Hin.
    + destruct Hj as [Hmin [Hcp [Hb _]]].
      exists j, (best_model_wts a).
      split; [exact Hmin |]. split; [exact Hcp |].
      split; [apply load_state_dict_spec |].
      split; [exists (model a); reflexivity |].
      exists (stdout a ++ [LogComplete; LogBestAcc (best_acc a)]).
      rewrite <- Hb, <- app_assoc. reflexivity.
Qed.

Lemma best_checkpoint_returned_witness :
  exists r,
    train_model (C := Example.toy) Example.scenario_loaders 3 1 false false
      Example.w0 0.5 = Ok r /\
    loss (out_val r) = [0.9; 0.7; 0.8] /\
    exists j p,
      first_minimum (loss (out_val r)) j /\
      checkpoint_of_epoch (C := Example.toy) Example.scenario_loaders 3 1 false false
        Example.w0 j p /\
      state_dict (out_model r) = p.
Proof.
  eexists. split; [vm_compute; reflexivity |]. split; [reflexivity |].
  destruct (@best_checkpoint_returned Example.toy Example.scenario_loaders 3 1 false false)
    as [_ H].
  edestruct (H Example.w0 0.5) as [j [p [Hmin [Hcp [Hp _]]]]].
  - vm_compute. reflexivity.
  - exists 0.7. split; [right; left; reflexivity | reflexivity].
  - exists j, p. split; [exact Hmin | split; [exact Hcp | exact Hp]].
Defined.

(** The scenario of the specification: validation losses 0.9, 0.7, 0.8 give
    the best loss 0.7 and the checkpoint of the second epoch, not the third. *)
Example best_checkpoint_scenario :
  exists r,
    train_model (C := Example.toy) Example.scenario_loaders 3 1 false false
      Example.w0 0.5 = Ok r /\
    loss (out_val r) = [0.9; 0.7; 0.8] /\
    last (out_stdout r) LogBlank = LogBestLoss 0.7 /\
    first_minimum (loss (out_val r)) 1 /\
    checkpoint_of_epoch (C := Example.toy) Example.scenario_loaders 3 1 false false
      Example.w0 1 (state_dict (out_model r)) /\
    ~ checkpoint_of_epoch (C := Example.toy) Example.scenario_loaders 3 1 false false
        Example.w0 2 (state_dict (out_model r)).
Proof.
  eexists. split; [vm_compute; reflexivity |].
  split; [reflexivity |]. split; [reflexivity |]. split; [| split].
  - unfold first_minimum. simpl. split; [lia |]. split.
    + intros [| [| [| i]]] Hi; simpl; try lia; discriminate.
    + intros [| i] Hi; simpl; [reflexivity | lia].
  - eexists. eexists. split; [vm_compute; reflexivity |].
    split; [vm_compute; reflexivity | reflexivity].
  - intros [st [s [Hst [Hs Hp]]]].
    vm_compute in Hst. injection Hst as <-.
    vm_compute in Hs. injection Hs as <-.
    discriminate Hp.
Qed.

(** C1 as stated fails when no validation loss is below the initial
    [best_loss]: the only epoch has the least validation loss, 20000, and the
    returned model does not carry its parameters. *)
Lemma first_minimum_not_restored :
  ~ (forall r,
       train_model (C := Example.toy) Example.sentinel_loaders 1 1 false false
         Example.w0 0.5 = Ok r ->
       exists j p,
         first_minimum (loss (out_val r)) j /\
         checkpoint_of_epoch (C := Example.toy) Example.sentinel_loaders 1 1 false false
           Example.w0 j p /\
         state_dict (out_model r) = p).
Proof.
  intros H. edestruct H as [j [p [Hmin [Hcp Hp]]]]; [vm_compute; reflexivity |].
  destruct Hmin as [Hj _]. simpl in Hj.
  assert (j = 0%nat) by lia. subst j.
  destruct Hcp as [st [s [Hst [Hs Hp']]]].
  vm_compute in Hst. injection Hst as <-.
  vm_compute in Hs. injection Hs as <-.
  vm_compute in Hp, Hp'. congruence.
Qed.

(** ** The initial best loss *)

(** C9: [best_loss] starts at 10000.0; when no validation loss is below it
    no checkpoint is taken: the model comes back with its initial state dict
    and the run reports best loss 10000.0 and best accuracy 0.0. *)
Theorem sentinel_never_beaten {C : Collaborators} (dataloaders : Phase -> DataLoader)
  (num_epochs num_classes : Z) (is_inception profiler : bool)
  (m : world) (threshold : Q) (r : Output) :
  train_model dataloaders num_epochs num_classes is_inception profiler m threshold = Ok r ->
  (forall l, In l (loss (out_val r)) -> 10000.0 <= l) ->
  best_loss (initial_state m) = 10000.0 /\
  state_dict (out_model r) = state_dict m /\
  (exists w, out_model r = load_state_dict (state_dict m) w) /\
  (exists lines,
      out_stdout r = lines ++ [LogComplete; LogBestAcc (Fin 0.0); LogBestLoss 10000.0]).
Proof.
  intros H Hall. unfold train_model in H.
  bind_inv H. injection H as <-. simpl in Hall |- *.
  split; [reflexivity |].
  apply best_invariant in Ha. destruct Ha as [_ [[Hb [Hacc [Hw _]]] | [j Hj]]].
  - rewrite Hw, Hb, Hacc.
    split; [apply load_state_dict_spec |].
    split; [exists (model a); reflexivity |].
    exists (stdout a). reflexivity.
  - exfalso. destruct Hj as [[Hlt _] [_ [Hb Hbelow]]].
    apply (Qlt_not_le _ _ Hbelow). rewrite Hb. apply Hall.
    apply nth_In. exact Hlt.
Qed.

Lemma sentinel_never_beaten_witness :
  exists r,
    train_model (C := Example.toy) Example.sentinel_loaders 1 1 false false
      Example.w0 0.5 = Ok r /\
    loss (out_val r) = [20000.0] /\
    state_dict (out_model r) = state_dict (Collaborators := Example.toy) Example.w0 /\
    last (out_stdout r) LogBlank = LogBestLoss 10000.0.
Proof.
  eexists. split; [vm_compute; reflexivity |]. split; [reflexivity |].
  edestruct (@sentinel_never_beaten Example.toy Example.sentinel_loaders 1 1 false false
               Example.w0 0.5) as [_ [Hp _]].
  - vm_compute. reflexivity.
  - intros l [<- | []]. discriminate.
  - split; [exact Hp | reflexivity].
Defined.

(** ** A phase without data *)

Lemma run_phase_empty_dataset {C : Collaborators} (dataloaders : Phase -> DataLoader)
  (num_epochs num_classes : Z) (is_inception profiler : bool)
  (epoch : nat) (phase : Phase) (st : LoopState) (ps : PhaseState) :
  for_each (batch_step dataloaders num_epochs is_inception profiler epoch phase)
    (batches (dataloaders phase) epoch) (phase_start st) = Ok ps ->
  dataset_len (dataloaders phase) = 0%nat ->
  run_phase dataloaders num_epochs num_classes is_inception profiler epoch phase st
  = Raise ZeroDivisionError.
Proof.
  intros Hfor Hlen. unfold run_phase. rewrite Hfor, Hlen. reflexivity.
Qed.

(** C8, for a run of at least one epoch: a phase whose dataset is empty or
    whose loader yields no batch in the first epoch aborts the run with an
    exception nothing handles; when the dataset is empty, the division that
    computes [epoch_loss] raises once the batches of the phase are through. *)
Theorem empty_phase_aborts {C : Collaborators} (dataloaders : Phase -> DataLoader)
  (num_epochs num_classes : Z) (is_inception profiler : bool)
  (m : world) (threshold : Q) :
  (0 < num_epochs)%Z ->
  (exists phase,
      dataset_len (dataloaders phase) = 0%nat \/ batches (dataloaders phase) 0 = []) ->
  (exists e,
      train_model dataloaders num_epochs num_classes is_inception profiler m threshold
      = Raise e) /\
  (forall epoch phase st ps,
      for_each (batch_step dataloaders num_epochs is_inception profiler epoch phase)
        (batches (dataloaders phase) epoch) (phase_start st) = Ok ps ->
      dataset_len (dataloaders phase) = 0%nat ->
      run_phase dataloaders num_epochs num_classes is_inception profiler epoch phase st
      = Raise ZeroDivisionError) /\
  (dataset_len (dataloaders Train) = 0%nat -> batches (dataloaders Train) 0 = [] ->
   train_model dataloaders num_epochs num_classes is_inception profiler m threshold
   = Raise ZeroDivisionError).
Proof.
  intros Hpos [phase Hempty].
  destruct (Z.to_nat num_epochs) as [| k] eqn:Hk; [lia |].
  split; [| split].
  - destruct (train_model dataloaders num_epochs num_classes is_inception profiler
                m threshold) as [r | e] eqn:Hrun; [| exists e; reflexivity].
    exfalso. unfold train_model in Hrun. rewrite Hk in Hrun.
    bind_inv Hrun. simpl in Ha. bind_inv Ha.
    apply epoch_body_Ok in Ha0. destruct Ha0 as [st1 [Htrain Hval]].
    apply run_phase_Ok in Htrain. destruct Htrain as [_ [_ [Hb1 [Hl1 _]]]].
    apply run_phase_Ok in Hval. destruct Hval as [_ [_ [Hb2 [Hl2 _]]]].
    destruct phase, Hempty; contradiction.
  - intros epoch phase' st ps. apply run_phase_empty_dataset.
  - intros Hlen Hbatches. unfold train_model. rewrite Hk. simpl.
    unfold epoch_body.
    rewrite (@run_phase_empty_dataset C dataloaders num_epochs num_classes is_inception
               profiler 0%nat Train _ (phase_start (epoch_begin num_epochs 0%nat
                                                      (initial_state m))));
      [reflexivity | rewrite Hbatches; reflexivity | exact Hlen].
Qed.

Lemma empty_phase_aborts_witness :
  train_model (C := Example.toy) (Example.no_batches 0) 1 1 false false Example.w0 0.5
  = Raise ZeroDivisionError.
Proof.
  assert (Hpos : (0 < 1)%Z) by lia.
  assert (Hempty : exists phase,
             dataset_len (Example.no_batches 0 phase) = 0%nat \/
             batches (Example.no_batches 0 phase) 0 = [])
    by (exists Train; left; reflexivity).
  destruct (@empty_phase_aborts Example.toy (Example.no_batches 0) 1 1 false false
              Example.w0 0.5 Hpos Hempty) as [_ [_ H]].
  apply H; reflexivity.
Defined.

(** C8 as stated fails: a loader that yields no batch over a dataset of two
    examples gets through the division and fails at [running_corrects.double()];
    and with no epoch to run nothing is raised at all. *)
Lemma empty_loader_other_outcomes :
  batches (Example.no_batches 2 Train) 0 = [] /\
  train_model (C := Example.toy) (Example.no_batches 2) 1 1 false false Example.w0 0.5
  = Raise AttributeError /\
  dataset_len (Example.no_batches 0 Train) = 0%nat /\
  exists r,
    train_model (C := Example.toy) (Example.no_batches 0) 0 1 false false Example.w0 0.5
    = Ok r.
Proof.
  split; [reflexivity |].
  split; [vm_compute; reflexivity |].
  split; [reflexivity |].
  eexists. vm_compute. reflexivity.
Qed.

(** * Further properties of [train_model] *)

(** ** The model through a phase *)

Section PhaseModel.

Context {C : Collaborators}.
Variable dataloaders : Phase -> DataLoader.
Variables num_epochs num_classes : Z.
Variables is_inception profiler : bool.

Local Abbreviation step := (batch_step dataloaders num_epochs is_inception profiler).
Local Abbreviation phase_run :=
  (run_phase dataloaders num_epochs num_classes is_inception profiler).

Lemma phase_model_val (w : world) (bs : list Batch) :
  phase_model is_inception Val w bs = w.
Proof.
  unfold phase_model. induction bs as [| b bs IH]; simpl; [reflexivity | exact IH].
Qed.

Lemma phase_model_train (w : world) (bs : list Batch) :
  phase_model is_inception Train w bs = fold_left (backward_step is_inception) bs w.
Proof. reflexivity. Qed.

Lemma for_each_split {S A : Type} (body : S -> A -> result S) (xs ys : list A)
  (st st' : S) :
  for_each body (xs ++ ys) st = Ok st' ->
  exists st1, for_each body xs st = Ok st1 /\ for_each body ys st1 = Ok st'.
Proof.
  revert st. induction xs as [| x xs IH]; intros st H; simpl in H.
  - exists st. split; [reflexivity | exact H].
  - bind_inv H. destruct (IH _ H) as [st1 [H1 H2]].
    exists st1. simpl. rewrite Ha. split; assumption.
Qed.


End PhaseModel.


(** ** The running count of correct positions *)

Lemma row_matches_nonneg (p l : Row) (c : Z) : row_matches p l = Ok c -> (0 <= c)%Z.
Proof.
  unfold row_matches.
  destruct (Nat.eqb (length p) (length l)).
  - intros H. injection H as <-. apply eq_count_bounds.
  - destruct p as [| x [| x' p]]; destruct l as [| y [| y' l]];
      intros H; try discriminate H; injection H as <-; apply eq_count_bounds.
Qed.

Lemma rows_matches_nonneg (rows : list (Row * Row)) (c : Z) :
  rows_matches rows = Ok c -> (0 <= c)%Z.
Proof.
  revert c. induction rows as [| [p l] rows IH]; intros c H; simpl in H.
  - injection H as <-. lia.
  - bind_inv H. bind_inv H. injection H as <-.
    apply row_matches_nonneg in Ha. apply IH in Ha0. lia.
Qed.

Lemma tensor_matches_nonneg (p l : Tensor) (c : Z) :
  tensor_matches p l = Ok c -> (0 <= c)%Z.
Proof.
  unfold tensor_matches.
  destruct (Nat.eqb (length p) (length l)); [apply rows_matches_nonneg |].
  destruct p as [| r [| r' p]]; destruct l as [| s [| s' l]];
    try discriminate; apply rows_matches_nonneg.
Qed.

Lemma Zsum_nonneg (cs : list Z) : Forall (fun c => (0 <= c)%Z) cs -> (0 <= Zsum cs)%Z.
Proof. induction 1; simpl; lia. Qed.

(** X2: within a phase [running_corrects] never decreases as more batches
    are processed, and it is never negative. *)
Theorem running_corrects_monotone {C : Collaborators} (dataloaders : Phase -> DataLoader)
  (num_epochs : Z) (is_inception profiler : bool) (epoch : nat) (phase : Phase)
  (done more : list Batch) (st st' : PhaseState) :
  for_each (batch_step dataloaders num_epochs is_inception profiler epoch phase)
    (done ++ more) st = Ok st' ->
  exists mid,
    for_each (batch_step dataloaders num_epochs is_inception profiler epoch phase)
      done st = Ok mid /\
    (counter_value (running_corrects st) <= counter_value (running_corrects mid))%Z /\
    (counter_value (running_corrects mid) <= counter_value (running_corrects st'))%Z.
Proof.
  intros H. apply for_each_split in H. destruct H as [mid [H1 H2]].
  exists mid. split; [exact H1 |].
  apply for_each_step_Ok in H1, H2.
  destruct H1 as [cs1 [Hc1 [_ [_ [Hv1 _]]]]].
  destruct H2 as [cs2 [Hc2 [_ [_ [Hv2 _]]]]].
  assert (Hnn : forall trace cs,
             Forall2 (batch_corrects is_inception phase) trace cs ->
             Forall (fun c => (0 <= c)%Z) cs).
  { intros trace cs Hall. induction Hall as [| wb c trace cs Hc _ IH]; constructor.
    - unfold batch_corrects in Hc. eapply tensor_matches_nonneg. exact Hc.
    - exact IH. }
  apply Hnn, Zsum_nonneg in Hc1. apply Hnn, Zsum_nonneg in Hc2. lia.
Qed.

Lemma running_corrects_monotone_witness :
  exists mid st',
    for_each (batch_step (C := Example.toy) Example.constant_loaders 2 false false 0 Train)
      (firstn 1 Example.constant_batches) (phase_start Example.st0) = Ok mid /\
    for_each (batch_step (C := Example.toy) Example.constant_loaders 2 false false 0 Train)
      Example.constant_batches (phase_start Example.st0) = Ok st' /\
    (counter_value (running_corrects mid) <= counter_value (running_corrects st'))%Z.
Proof.
  edestruct (@running_corrects_monotone Example.toy Example.constant_loaders 2 false false
               0%nat Train (firstn 1 Example.constant_batches)
               (skipn 1 Example.constant_batches) (phase_start Example.st0))
    as [mid [Hmid [_ Hle]]]; [vm_compute; reflexivity |].
  eexists. eexists. split; [exact Hmid |]. split; [vm_compute; reflexivity | exact Hle].
Defined.

(** ** What a phase prints *)

Section PhaseLog.

Context {C : Collaborators}.
Variable dataloaders : Phase -> DataLoader.
Variables num_epochs num_classes : Z.
Variables is_inception profiler : bool.

Local Abbreviation step := (batch_step dataloaders num_epochs is_inception profiler).
Local Abbreviation phase_run :=
  (run_phase dataloaders num_epochs num_classes is_inception profiler).

Lemma batch_step_log (epoch : nat) (phase : Phase) (st st' : PhaseState) (b : Batch) :
  step epoch phase st b = Ok st' ->
  i st' = (i st + 1)%Z /\
  ph_model st' = after_batch is_inception phase (ph_model st) b /\
  ph_prof st'
  = (if profiler then Some (profiled (ph_model st) phase (map fst b)) else ph_prof st) /\
  exists lines,
    ph_stdout st' = ph_stdout st ++ lines /\
    Forall (fun l => is_step_line l = true) lines /\
    map step_index lines = filter (fun j => (j mod 100 =? 0)%Z) [(i st + 1)%Z].
Proof.
  unfold batch_step.
  destruct (forward_loss is_inception (ph_model st) phase (map fst b) (map snd b))
    as [outs l].
  intros H. bind_inv H. injection H as <-. simpl.
  split; [reflexivity |]. split; [reflexivity |]. split; [reflexivity |].
  destruct (((i st + 1) mod 100 =? 0)%Z); eexists; split; try reflexivity; split;
    try reflexivity; repeat constructor.
Qed.

Lemma for_each_log (epoch : nat) (phase : Phase) (bs : list Batch) (st st' : PhaseState) :
  for_each (step epoch phase) bs st = Ok st' ->
  exists lines,
    ph_stdout st' = ph_stdout st ++ lines /\
    Forall (fun l => is_step_line l = true) lines /\
    map step_index lines
    = filter (fun j => (j mod 100 =? 0)%Z)
        (map (fun k => (i st + Z.of_nat k + 1)%Z) (seq 0 (length bs))).
Proof.
  revert st. induction bs as [| b bs IH]; intros st H; simpl in H.
  - injection H as <-. exists []. rewrite app_nil_r. repeat split. constructor.
  - bind_inv H. apply batch_step_log in Ha.
    destruct Ha as [Hi [_ [_ [l1 [Hout1 [Hstep1 Hidx1]]]]]].
    apply IH in H. destruct H as [l2 [Hout2 [Hstep2 Hidx2]]].
    exists (l1 ++ l2). rewrite Hout2, Hout1, <- app_assoc.
    split; [reflexivity |]. split; [apply Forall_app; split; assumption |].
    rewrite Hi in Hidx2. rewrite map_app, Hidx1, Hidx2.
    simpl length. rewrite <- cons_seq, <- seq_shift. cbn [map filter].
    rewrite map_map.
    replace (i st + Z.of_nat 0 + 1)%Z with (i st + 1)%Z by lia.
    rewrite (map_ext (fun x => (i st + Z.of_nat (S x) + 1)%Z)
               (fun k => (i st + 1 + Z.of_nat k + 1)%Z)) by (intros; lia).
    destruct ((i st + 1) mod 100 =? 0)%Z; reflexivity.
Qed.

Lemma hundredth_steps_few (n : nat) : (n < 100)%nat -> hundredth_steps n = [].
Proof.
  intros Hn. unfold hundredth_steps.
  assert (H : forall j, In j (map (fun k => (Z.of_nat k + 1)%Z) (seq 0 n)) ->
                        (j mod 100 =? 0)%Z = false).
  { intros j Hin. apply in_map_iff in Hin. destruct Hin as [k [<- Hk]].
    apply in_seq in Hk. apply Z.eqb_neq. rewrite Z.mod_small; lia. }
  induction (map (fun k => (Z.of_nat k + 1)%Z) (seq 0 n)) as [| j js IH]; simpl.
  - reflexivity.
  - rewrite (H j (or_introl eq_refl)). apply IH. intros j' Hin. apply H. right. exact Hin.
Qed.

(** What a phase that completes has printed. *)
Lemma run_phase_stdout (epoch : nat) (phase : Phase) (st st' : LoopState) :
  phase_run epoch phase st = Ok st' ->
  exists lines epoch_loss acc100,
    stdout st' = stdout st ++ lines ++ [LogPhase phase epoch_loss acc100] /\
    Forall (fun l => is_step_line l = true) lines /\
    map step_index lines = hundredth_steps (length (batches (dataloaders phase) epoch)).
Proof.
  unfold run_phase. intros H.
  bind_inv H. rename a into ps.
  bind_inv H. bind_inv H. bind_inv H. bind_inv H.
  apply for_each_log in Ha. destruct Ha as [lines [Hout [Hstep Hidx]]].
  simpl in Hout, Hidx.
  injection H as <-. simpl.
  exists lines. eexists. eexists.
  split; [rewrite Hout, <- app_assoc; reflexivity |].
  split; [exact Hstep | exact Hidx].
Qed.

(** X3: a phase prints one progress line for every 100th batch, showing the
    step indices 100, 200, ... in order, and after them its one summary line;
    a phase of fewer than 100 batches prints the summary line only. *)
Theorem progress_lines (epoch : nat) (phase : Phase) (st st' : LoopState) :
  phase_run epoch phase st = Ok st' ->
  exists lines epoch_loss acc100,
    stdout st' = stdout st ++ lines ++ [LogPhase phase epoch_loss acc100] /\
    Forall (fun l => is_step_line l = true) lines /\
    map step_index lines = hundredth_steps (length (batches (dataloaders phase) epoch)) /\
    ((length (batches (dataloaders phase) epoch) < 100)%nat -> lines = []).
Proof.
  intros H. apply run_phase_stdout in H.
  destruct H as [lines [epoch_loss [acc100 [Hout [Hstep Hidx]]]]].
  exists lines, epoch_loss, acc100.
  split; [exact Hout |]. split; [exact Hstep |]. split; [exact Hidx |].
  intros Hfew. rewrite (hundredth_steps_few Hfew) in Hidx.
  destruct lines; [reflexivity | discriminate Hidx].
Qed.

End PhaseLog.

Lemma progress_lines_witness :
  exists st' lines epoch_loss acc100,
    run_phase (C := Example.toy) (Demo.many_loaders 250) 1 1 false false 0 Val
      Example.st0 = Ok st' /\
    stdout st' = stdout Example.st0 ++ lines ++ [LogPhase Val epoch_loss acc100] /\
    map step_index lines = [100; 200]%Z.
Proof.
  edestruct (@progress_lines Example.toy (Demo.many_loaders 250) 1 1 false false
               0%nat Val Example.st0)
    as [lines [epoch_loss [acc100 [Hout [_ [Hidx _]]]]]]; [vm_compute; reflexivity |].
  eexists. exists lines, epoch_loss, acc100.
  split; [vm_compute; reflexivity |]. split; [exact Hout |].
  rewrite Hidx. vm_compute. reflexivity.
Defined.

(** ** What a run prints *)

Lemma skeleton_app (a b : list LogLine) : skeleton (a ++ b) = skeleton a ++ skeleton b.
Proof. unfold skeleton. rewrite filter_app, map_app. reflexivity. Qed.

Lemma skeleton_steps (lines : list LogLine) :
  Forall (fun l => is_step_line l = true) lines -> skeleton lines = [].
Proof.
  unfold skeleton. induction 1 as [| l lines Hl _ IH]; simpl.
  - reflexivity.
  - rewrite Hl. simpl. exact IH.
Qed.

Section RunLog.

Context {C : Collaborators}.
Variable dataloaders : Phase -> DataLoader.
Variables num_epochs num_classes : Z.
Variables is_inception profiler : bool.

Lemma run_phase_skeleton (epoch : nat) (phase : Phase) (st st' : LoopState) :
  run_phase dataloaders num_epochs num_classes is_inception profiler epoch phase st = Ok st' ->
  skeleton (stdout st') = skeleton (stdout st) ++ [KPhase phase].
Proof.
  intros H. apply run_phase_stdout in H.
  destruct H as [lines [epoch_loss [acc100 [-> [Hstep _]]]]].
  rewrite !skeleton_app, (skeleton_steps Hstep). reflexivity.
Qed.

Lemma epoch_body_skeleton (epoch : nat) (st s : LoopState) :
  epoch_body dataloaders num_epochs num_classes is_inception profiler epoch st = Ok s ->
  skeleton (stdout (epoch_end s)) = skeleton (stdout st) ++ epoch_skeleton epoch.
Proof.
  intros H. apply epoch_body_Ok in H. destruct H as [st1 [Htrain Hval]].
  apply run_phase_skeleton in Htrain, Hval.
  simpl. rewrite skeleton_app, Hval, Htrain. simpl stdout.
  rewrite skeleton_app, <- !app_assoc. reflexivity.
Qed.

(** X4: apart from the progress lines, a run that returns has printed, for
    each epoch in turn, the header with the 1-based epoch number, the rule,
    the training summary, the validation summary and a blank line, and then
    the three closing lines. *)
Theorem stdout_skeleton (m : world) (threshold : Q) (r : Output) :
  train_model dataloaders num_epochs num_classes is_inception profiler m threshold = Ok r ->
  skeleton (out_stdout r)
  = flat_map epoch_skeleton (seq 0 (Z.to_nat num_epochs))
    ++ [KComplete; KBestAcc; KBestLoss].
Proof.
  unfold train_model. intros H. bind_inv H. injection H as <-.
  simpl. rewrite skeleton_app. f_equal.
  revert Ha.
  apply run_epochs_invariant
    with (P := fun k st => skeleton (stdout st) = flat_map epoch_skeleton (seq 0 k)).
  - reflexivity.
  - intros k st s _ Hk Hbody.
    apply epoch_body_skeleton in Hbody. rewrite Hbody, Hk.
    rewrite seq_S, flat_map_app. simpl. reflexivity.
Qed.

End RunLog.

Lemma stdout_skeleton_witness :
  exists r,
    train_model (C := Example.toy) Example.scenario_loaders 3 1 false false
      Example.w0 0.5 = Ok r /\
    skeleton (out_stdout r)
    = flat_map epoch_skeleton (seq 0 (Z.to_nat 3)) ++ [KComplete; KBestAcc; KBestLoss].
Proof.
  eexists. split; [vm_compute; reflexivity |].
  apply (@stdout_skeleton Example.toy Example.scenario_loaders 3 1 false false
           Example.w0 0.5).
  vm_compute. reflexivity.
Defined.

(** ** The model through a run *)

Section RunModel.

Context {C : Collaborators}.
Variable dataloaders : Phase -> DataLoader.
Variables num_epochs num_classes : Z.
Variables is_inception profiler : bool.

Lemma epoch_body_model (epoch : nat) (st s : LoopState) :
  epoch_body dataloaders num_epochs num_classes is_inception profiler epoch st = Ok s ->
  model s = train_pass dataloaders is_inception epoch (model st).
Proof.
  intros H. apply epoch_body_Ok in H. destruct H as [st1 [Htrain Hval]].
  apply run_phase_Ok in Htrain.
  destruct Htrain as [_ [_ [_ [_ [_ [_ [Hm1 _]]]]]]].
  apply run_phase_Ok in Hval.
  destruct Hval as [_ [_ [_ [_ [_ [_ [Hm2 _]]]]]]].
  rewrite Hm2, phase_model_val, Hm1. reflexivity.
Qed.

Lemma run_epochs_model (m : world) (k : nat) (st : LoopState) :
  run_epochs dataloaders num_epochs num_classes is_inception profiler k 0 (initial_state m)
  = Ok st ->
  model st = epochs_model dataloaders is_inception k m.
Proof.
  revert k st.
  apply run_epochs_invariant
    with (P := fun k st => model st = epochs_model dataloaders is_inception k m).
  - reflexivity.
  - intros k st s _ Hk Hbody. simpl.
    apply epoch_body_model in Hbody. rewrite Hbody, Hk. reflexivity.
Qed.

(** X5: in a run that returns, the scheduler is stepped exactly once per
    epoch, after the optimizer steps of that epoch's training batches; the
    returned object is the model so trained with a state dict loaded into it,
    and the validation batches have changed nothing. *)
Theorem one_scheduler_step_per_epoch (m : world) (threshold : Q) (r : Output) :
  train_model dataloaders num_epochs num_classes is_inception profiler m threshold = Ok r ->
  exists p,
    out_model r
    = load_state_dict p (epochs_model dataloaders is_inception (Z.to_nat num_epochs) m).
Proof.
  unfold train_model. intros H. bind_inv H. injection H as <-.
  exists (best_model_wts a). simpl.
  apply run_epochs_model in Ha. rewrite Ha. reflexivity.
Qed.

End RunModel.

Lemma one_scheduler_step_per_epoch_witness :
  exists r,
    train_model (C := Example.toy) Example.scenario_loaders 3 1 false false
      Example.w0 0.5 = Ok r /\
    Example.sched_ticks (out_model r) = 3%nat.
Proof.
  eexists. split; [vm_compute; reflexivity |].
  edestruct (@one_scheduler_step_per_epoch Example.toy Example.scenario_loaders 3 1
               false false Example.w0 0.5) as [p Hp]; [vm_compute; reflexivity |].
  rewrite Hp. reflexivity.
Defined.

(** ** The profile that is kept *)

Section Profile.

Context {C : Collaborators}.
Variable dataloaders : Phase -> DataLoader.
Variables num_epochs num_classes : Z.
Variables is_inception profiler : bool.

Local Abbreviation step := (batch_step dataloaders num_epochs is_inception profiler).

Lemma for_each_prof_off (epoch : nat) (phase : Phase) (bs : list Batch)
  (st st' : PhaseState) :
  profiler = false ->
  for_each (step epoch phase) bs st = Ok st' -> ph_prof st' = ph_prof st.
Proof.
  intros Hoff. revert st. induction bs as [| b bs IH]; intros st H; simpl in H.
  - injection H as <-. reflexivity.
  - bind_inv H. apply batch_step_log in Ha. destruct Ha as [_ [_ [Hp _]]].
    rewrite Hoff in Hp. apply IH in H. congruence.
Qed.

Lemma for_each_prof_on (epoch : nat) (phase : Phase) (bs : list Batch) (b : Batch)
  (st st' : PhaseState) :
  profiler = true ->
  for_each (step epoch phase) (bs ++ [b]) st = Ok st' ->
  ph_prof st'
  = Some (profiled (phase_model is_inception phase (ph_model st) bs) phase (map fst b)).
Proof.
  intros Hon H. apply for_each_split in H. destruct H as [mid [Hbs Hb]].
  apply for_each_step_Ok in Hbs. destruct Hbs as [_ [_ [Hm _]]].
  simpl in Hb. bind_inv Hb. injection Hb as <-.
  apply batch_step_log in Ha. destruct Ha as [_ [_ [Hp _]]].
  rewrite Hon, Hm in Hp. exact Hp.
Qed.

(** The locals a completed phase hands back. *)
Lemma run_phase_locals (epoch : nat) (phase : Phase) (st st' : LoopState) :
  run_phase dataloaders num_epochs num_classes is_inception profiler epoch phase st = Ok st' ->
  exists ps,
    for_each (step epoch phase) (batches (dataloaders phase) epoch) (phase_start st) = Ok ps /\
    prof st' = ph_prof ps.
Proof.
  unfold run_phase. intros H.
  bind_inv H. rename a into ps.
  bind_inv H. bind_inv H. bind_inv H. bind_inv H.
  injection H as <-. exists ps. split; [exact Ha | reflexivity].
Qed.

Lemma epoch_body_prof_off (epoch : nat) (st s : LoopState) :
  profiler = false ->
  epoch_body dataloaders num_epochs num_classes is_inception profiler epoch st = Ok s ->
  prof s = prof st.
Proof.
  intros Hoff H. apply epoch_body_Ok in H. destruct H as [st1 [Htrain Hval]].
  apply run_phase_locals in Htrain, Hval.
  destruct Htrain as [ps1 [Hfor1 Hp1]]. destruct Hval as [ps2 [Hfor2 Hp2]].
  eapply for_each_prof_off in Hfor1; [| exact Hoff].
  eapply for_each_prof_off in Hfor2; [| exact Hoff].
  simpl in Hfor1, Hfor2. congruence.
Qed.

Lemma epoch_body_prof_on (epoch : nat) (st s : LoopState) :
  profiler = true ->
  epoch_body dataloaders num_epochs num_classes is_inception profiler epoch st = Ok s ->
  exists bs b,
    batches (dataloaders Val) epoch = bs ++ [b] /\
    prof s
    = Some (profiled (train_pass dataloaders is_inception epoch (model st)) Val (map fst b)).
Proof.
  intros Hon H. apply epoch_body_Ok in H. destruct H as [st1 [Htrain Hval]].
  pose proof Hval as Hnonempty. apply run_phase_Ok in Hnonempty.
  destruct Hnonempty as [_ [_ [Hbs _]]].
  apply run_phase_Ok in Htrain. destruct Htrain as [_ [_ [_ [_ [_ [_ [Hm1 _]]]]]]].
  apply run_phase_locals in Hval. destruct Hval as [ps [Hfor Hp]].
  destruct (exists_last Hbs) as [bs [b Hlast]].
  exists bs, b. split; [exact Hlast |].
  rewrite Hlast in Hfor. eapply for_each_prof_on in Hfor; [| exact Hon].
  rewrite Hp, Hfor. simpl. rewrite phase_model_val, Hm1. reflexivity.
Qed.

(** X6: without the profiler flag no profile is returned; with it, a run of
    at least one epoch returns the profile of the most recent forward pass
    only: the one over the last validation batch of the last epoch. *)
Theorem last_profile_kept (m : world) (threshold : Q) (r : Output) :
  train_model dataloaders num_epochs num_classes is_inception profiler m threshold = Ok r ->
  (profiler = false -> out_prof r = None) /\
  (profiler = true -> forall last_epoch, Z.to_nat num_epochs = S last_epoch ->
   exists bs b,
     batches (dataloaders Val) last_epoch = bs ++ [b] /\
     out_prof r
     = Some (profiled
               (train_pass dataloaders is_inception last_epoch
                  (epochs_model dataloaders is_inception last_epoch m))
               Val (map fst b))).
Proof.
  unfold train_model. intros H. bind_inv H. injection H as <-. simpl. split.
  - intros Hoff. revert Ha.
    apply run_epochs_invariant with (P := fun k st => prof st = None).
    + reflexivity.
    + intros k st s _ Hk Hbody. simpl.
      eapply epoch_body_prof_off in Hbody; [| exact Hoff]. congruence.
  - intros Hon k Hk. rewrite Hk, run_epochs_snoc in Ha.
    bind_inv Ha. bind_inv Ha. injection Ha as <-. simpl in Ha1 |- *.
    apply run_epochs_model in Ha0.
    eapply epoch_body_prof_on in Ha1; [| exact Hon].
    destruct Ha1 as [bs [b [Hlast Hp]]].
    exists bs, b. split; [exact Hlast |]. rewrite Hp, Ha0. reflexivity.
Qed.

End Profile.

Lemma last_profile_kept_witness :
  exists r,
    train_model (C := Example.toy) Example.scenario_loaders 3 1 false true
      Example.w0 0.5 = Ok r /\
    out_prof r = Some 3%nat.
Proof.
  eexists. split; [vm_compute; reflexivity |].
  edestruct (@last_profile_kept Example.toy Example.scenario_loaders 3 1 false true
               Example.w0 0.5) as [_ H]; [vm_compute; reflexivity |].
  destruct (H eq_refl 2%nat eq_refl) as [bs [b [Hlast Hp]]].
  destruct bs as [| b' bs]; [| destruct bs; discriminate Hlast].
  injection Hlast as <-. rewrite Hp. reflexivity.
Defined.

(** ** What the closing lines report *)

Section Report.

Context {C : Collaborators}.
Variable dataloaders : Phase -> DataLoader.
Variables num_epochs num_classes : Z.
Variables is_inception profiler : bool.

(** X7: the best loss a run reports is at most 10000.0 and at most every
    validation loss of the run; it is 10000.0 itself or one of those losses. *)
Theorem reported_best_loss (m : world) (threshold : Q) (r : Output) :
  train_model dataloaders num_epochs num_classes is_inception profiler m threshold = Ok r ->
  exists lines best,
    out_stdout r = lines ++ [LogBestLoss best] /\
    best <= 10000.0 /\
    (forall l, In l (loss (out_val r)) -> best <= l) /\
    (best = 10000.0 \/ In best (loss (out_val r))).
Proof.
  unfold train_model. intros H. bind_inv H. injection H as <-. simpl.
  exists (stdout a ++ [LogComplete; LogBestAcc (best_acc a)]), (best_loss a).
  split; [rewrite <- app_assoc; reflexivity |].
  apply best_invariant in Ha.
  destruct Ha as [_ [[Hb [_ [_ Hall]]] | [j [[Hj [Hmin _]] [_ [Hb Hlt]]]]]].
  - rewrite Hb. split; [apply Qle_refl |]. split; [exact Hall | left; reflexivity].
  - split; [apply Qlt_le_weak; exact Hlt |]. split.
    + intros l Hin. destruct (In_nth _ _ 0 Hin) as [i' [Hi' <-]].
      rewrite Hb. apply Hmin. exact Hi'.
    + right. rewrite Hb. apply nth_In. exact Hj.
Qed.

Lemma epoch_body_best_acc (epoch : nat) (st s : LoopState) :
  epoch_body dataloaders num_epochs num_classes is_inception profiler epoch st = Ok s ->
  exists epoch_loss epoch_acc,
    loss (val_history s) = loss (val_history st) ++ [epoch_loss] /\
    acc (val_history s) = acc (val_history st) ++ [epoch_acc] /\
    best_acc s = (if Qltb epoch_loss (best_loss st) then epoch_acc else best_acc st).
Proof.
  intros H. apply epoch_body_Ok in H. destruct H as [st1 [Htrain Hval]].
  apply run_phase_Ok in Htrain.
  destruct Htrain as [l1 [cs1 [_ [_ [_ [_ [_ [Hbl1 [Hba1 [_ [_ [Hv1 _]]]]]]]]]]]].
  simpl in Hbl1, Hba1. specialize (Hv1 eq_refl). simpl in Hv1.
  apply run_phase_Ok in Hval.
  destruct Hval as [l2 [cs2 [_ [_ [_ [_ [_ [_ [Hba2 [_ [Hh2 _]]]]]]]]]]].
  simpl in Hba2, Hh2. rewrite Hbl1, Hba1 in Hba2.
  do 2 eexists. rewrite Hh2, Hv1. simpl.
  split; [reflexivity |]. split; [reflexivity | exact Hba2].
Qed.

(** The accuracy kept with the checkpoint is the one of its epoch. *)
Lemma best_acc_invariant (m : world) (k : nat) (st : LoopState) :
  run_epochs dataloaders num_epochs num_classes is_inception profiler k 0 (initial_state m)
  = Ok st ->
  (length (loss (val_history st)) = k /\ length (acc (val_history st)) = k) /\
  (no_checkpoint_yet m st \/
   exists j,
     checkpoint_at dataloaders num_epochs num_classes is_inception profiler m st j /\
     best_acc st = nth j (acc (val_history st)) NaN).
Proof.
  revert k st.
  apply run_epochs_invariant
    with (P := fun k st =>
                 (length (loss (val_history st)) = k /\
                  length (acc (val_history st)) = k) /\
                 (no_checkpoint_yet m st \/
                  exists j,
                    checkpoint_at dataloaders num_epochs num_classes is_inception
                      profiler m st j /\
                    best_acc st = nth j (acc (val_history st)) NaN)).
  - split; [split; reflexivity |]. left.
    unfold no_checkpoint_yet. simpl. repeat split. intros l [].
  - intros k st s Hrun [[HlenL HlenA] Hinv] Hbody.
    pose proof Hbody as Hacc. apply epoch_body_best_acc in Hacc.
    destruct Hacc as [l [a [HL [HA Hba]]]].
    pose proof Hbody as Hupd. apply epoch_body_best in Hupd.
    destruct Hupd as [l' [HL' [Hbl [Hbw _]]]].
    rewrite HL in HL'. apply app_inj_tail in HL'. destruct HL' as [_ <-].
    unfold no_checkpoint_yet, checkpoint_at. simpl.
    rewrite HL, HA, !length_app, HlenL, HlenA. simpl.
    split; [split; lia |].
    assert (Hbound : best_loss st <= 10000.0 /\
                     forall i', (i' < length (loss (val_history st)))%nat ->
                                best_loss st <= nth i' (loss (val_history st)) 0).
    { destruct Hinv as [[Hb [_ [_ Hall]]] | [j [[[Hj [Hmin _]] [_ [Hb Hlt]]] _]]].
      - rewrite Hb. split; [apply Qle_refl |].
        intros i' Hi'. apply Hall. apply nth_In. exact Hi'.
      - split; [apply Qlt_le_weak; exact Hlt |].
        intros i' Hi'. rewrite Hb. apply Hmin. exact Hi'. }
    destruct Hbound as [Hsentinel Hbound].
    destruct (Qltb l (best_loss st)) eqn:E.
    + apply Qltb_lt in E. right. exists k.
      rewrite Hbl, Hbw, Hba.
      split.
      * rewrite <- HlenL, nth_snoc_new.
        split; [eapply first_minimum_new; [exact E | exact Hbound] |].
        split; [| split; [reflexivity | eapply Qlt_le_trans; eassumption]].
        exists st, s. rewrite HlenL. repeat split; assumption.
      * rewrite <- HlenA, app_nth2 by lia. rewrite Nat.sub_diag. reflexivity.
    + apply Qltb_ge in E. rewrite Hbl, Hbw, Hba.
      destruct Hinv as [[Hb [Ha [Hw Hall]]] | [j [[Hmin [Hcp [Hb Hlt]]] Hbacc]]].
      * left. repeat split; try assumption.
        intros l0 Hin. apply in_app_or in Hin. destruct Hin as [Hin | [<- | []]].
        -- apply Hall. exact Hin.
        -- rewrite <- Hb. exact E.
      * right. exists j.
        assert (Hj : (j < length (loss (val_history st)))%nat) by apply Hmin.
        rewrite nth_snoc_old by exact Hj.
        split.
        -- split; [apply first_minimum_kept; [exact Hmin | rewrite <- Hb; exact E] |].
           repeat split; assumption.
        -- rewrite app_nth1 by lia. exact Hbacc.
Qed.

(** X8: when some validation loss is below 10000.0, the best accuracy a run
    reports is the validation accuracy of the epoch whose checkpoint it
    returns, the first with the least validation loss, whatever the
    accuracies of the other epochs. *)
Theorem reported_best_acc (m : world) (threshold : Q) (r : Output) :
  train_model dataloaders num_epochs num_classes is_inception profiler m threshold = Ok r ->
  (exists l, In l (loss (out_val r)) /\ l < 10000.0) ->
  exists j lines,
    first_minimum (loss (out_val r)) j /\
    out_stdout r
    = lines ++ [LogBestAcc (nth j (acc (out_val r)) NaN);
                LogBestLoss (nth j (loss (out_val r)) 0)].
Proof.
  unfold train_model. intros H [l [Hin Hl]]. bind_inv H. injection H as <-.
  simpl in Hin |- *.
  apply best_acc_invariant in Ha.
  destruct Ha as [_ [[_ [_ [_ Hall]]] | [j [[Hmin [_ [Hb _]]] Hbacc]]]].
  - exfalso. apply (Qlt_not_le _ _ Hl). apply Hall. exact Hin.
  - exists j, (stdout a ++ [LogComplete]).
    split; [exact Hmin |]. rewrite <- Hb, <- Hbacc, <- app_assoc. reflexivity.
Qed.

End Report.

Lemma reported_best_loss_witness :
  exists r lines best,
    train_model (C := Example.toy) Example.scenario_loaders 3 1 false false
      Example.w0 0.5 = Ok r /\
    out_stdout r = lines ++ [LogBestLoss best] /\
    best <= 10000.0 /\
    (forall l, In l (loss (out_val r)) -> best <= l).
Proof.
  edestruct (@reported_best_loss Example.toy Example.scenario_loaders 3 1 false false
               Example.w0 0.5) as [lines [best [Hout [Hle [Hall _]]]]];
    [vm_compute; reflexivity |].
  eexists. exists lines, best.
  split; [vm_compute; reflexivity |].
  split; [exact Hout |]. split; [exact Hle | exact Hall].
Defined.

Lemma reported_best_acc_witness :
  exists r j lines,
    train_model (C := Example.toy) Demo.trade_off_loaders 2 1 false false
      Example.w0 0.5 = Ok r /\
    acc (out_val r) = [Fin 1; Fin 0] /\
    first_minimum (loss (out_val r)) j /\
    out_stdout r
    = lines ++ [LogBestAcc (nth j (acc (out_val r)) NaN);
                LogBestLoss (nth j (loss (out_val r)) 0)].
Proof.
  edestruct (@reported_best_acc Example.toy Demo.trade_off_loaders 2 1 false false
               Example.w0 0.5) as [j [lines [Hmin Hout]]].
  - vm_compute. reflexivity.
  - exists 0.2. split; [right; left; reflexivity | reflexivity].
  - eexists. exists j, lines.
    split; [vm_compute; reflexivity |].
    split; [vm_compute; reflexivity |].
    split; [exact Hmin | exact Hout].
Defined.

(** ** What the histories hold *)

Section Contents.

Context {C : Collaborators}.
Variable dataloaders : Phase -> DataLoader.
Variables num_epochs num_classes : Z.
Variables is_inception profiler : bool.

Lemma epoch_body_contents (epoch : nat) (st s : LoopState) (phase : Phase) :
  epoch_body dataloaders num_epochs num_classes is_inception profiler epoch st = Ok s ->
  targets (history_of phase s)
  = targets (history_of phase st)
    ++ [map snd (concat (batches (dataloaders phase) epoch))] /\
  outputs (history_of phase s)
  = outputs (history_of phase st)
    ++ [concat (map (batch_preds is_inception phase)
                  (epoch_trace dataloaders is_inception phase epoch
                     (match phase with
                      | Train => model st
                      | Val => train_pass dataloaders is_inception epoch (model st)
                      end)))].
Proof.
  intros H. apply epoch_body_Ok in H. destruct H as [st1 [Htrain Hval]].
  apply run_phase_Ok in Htrain.
  destruct Htrain as [l1 [cs1 [_ [_ [_ [_ [Hm1 [_ [_ [_ [Hh1 [Hv1 _]]]]]]]]]]]].
  specialize (Hv1 eq_refl). simpl in Hh1, Hv1, Hm1.
  apply run_phase_Ok in Hval.
  destruct Hval as [l2 [cs2 [_ [_ [_ [_ [_ [_ [_ [_ [Hh2 [_ Ht2]]]]]]]]]]]].
  specialize (Ht2 eq_refl). simpl in Hh2.
  unfold epoch_trace, batch_labels. rewrite concat_map.
  destruct phase; simpl.
  - rewrite Ht2, Hh1. simpl. split; reflexivity.
  - rewrite Hh2, Hv1, Hm1. simpl. split; reflexivity.
Qed.

(** X9: a run that returns has recorded, for every epoch and phase, the
    label rows of the phase's batches in the order the loader yielded them,
    and the thresholded predictions the model made batch by batch, the model
    being the one the optimizer and scheduler steps before that batch left. *)
Theorem history_contents (m : world) (threshold : Q) (r : Output) (phase : Phase)
  (epoch : nat) :
  train_model dataloaders num_epochs num_classes is_inception profiler m threshold = Ok r ->
  (epoch < Z.to_nat num_epochs)%nat ->
  nth epoch (targets (out_history_of phase r)) []
  = map snd (concat (batches (dataloaders phase) epoch)) /\
  nth epoch (outputs (out_history_of phase r)) []
  = concat (map (batch_preds is_inception phase)
              (epoch_trace dataloaders is_inception phase epoch
                 (phase_world dataloaders is_inception phase epoch m))).
Proof.
  unfold train_model. intros H Hlt. bind_inv H. injection H as <-.
  change (out_history_of phase (finish a)) with (history_of phase a).
  enough (Hinv :
            (length (targets (history_of phase a)) = Z.to_nat num_epochs /\
             length (outputs (history_of phase a)) = Z.to_nat num_epochs) /\
            forall epoch, (epoch < Z.to_nat num_epochs)%nat ->
              nth epoch (targets (history_of phase a)) []
              = map snd (concat (batches (dataloaders phase) epoch)) /\
              nth epoch (outputs (history_of phase a)) []
              = concat (map (batch_preds is_inception phase)
                          (epoch_trace dataloaders is_inception phase epoch
                             (phase_world dataloaders is_inception phase epoch m))))
    by (apply Hinv; exact Hlt).
  clear Hlt epoch. revert Ha.
  apply run_epochs_invariant
    with (P := fun k st =>
                 (length (targets (history_of phase st)) = k /\
                  length (outputs (history_of phase st)) = k) /\
                 forall epoch, (epoch < k)%nat ->
                   nth epoch (targets (history_of phase st)) []
                   = map snd (concat (batches (dataloaders phase) epoch)) /\
                   nth epoch (outputs (history_of phase st)) []
                   = concat (map (batch_preds is_inception phase)
                               (epoch_trace dataloaders is_inception phase epoch
                                  (phase_world dataloaders is_inception phase epoch m)))).
  - split; [destruct phase; split; reflexivity |]. intros epoch Hlt. lia.
  - intros k st s Hrun [[HlenT HlenO] Hold] Hbody.
    apply run_epochs_model in Hrun.
    destruct (@epoch_body_contents k st s phase Hbody) as [HT HO].
    rewrite Hrun in HO.
    change (history_of phase (epoch_end s)) with (history_of phase s).
    rewrite HT, HO, !length_app, HlenT, HlenO. simpl.
    split; [split; lia |].
    intros epoch Hlt. destruct (Nat.eq_dec epoch k) as [-> | Hne].
    + rewrite !app_nth2 by lia. rewrite HlenT, HlenO, Nat.sub_diag. simpl.
      destruct phase; split; reflexivity.
    + rewrite !app_nth1 by lia. apply Hold. lia.
Qed.

(** X10: a run returns only if, in every epoch it ran, the loader of each
    phase yielded at least one batch and its dataset was not empty. *)
Theorem returning_run_saw_data (m : world) (threshold : Q) (r : Output) (phase : Phase)
  (epoch : nat) :
  train_model dataloaders num_epochs num_classes is_inception profiler m threshold = Ok r ->
  (epoch < Z.to_nat num_epochs)%nat ->
  batches (dataloaders phase) epoch <> [] /\ dataset_len (dataloaders phase) <> 0%nat.
Proof.
  unfold train_model. intros H Hlt. bind_inv H. clear H.
  pose (P := fun (k : nat) (st : LoopState) =>
               forall e, (e < k)%nat ->
                 batches (dataloaders phase) e <> [] /\
                 dataset_len (dataloaders phase) <> 0%nat).
  assert (Hinit : P 0%nat (initial_state m)) by (intros e He; lia).
  assert (Hstep : forall k st s,
             run_epochs dataloaders num_epochs num_classes is_inception profiler
               k 0 (initial_state m) = Ok st ->
             P k st ->
             epoch_body dataloaders num_epochs num_classes is_inception profiler k st
             = Ok s ->
             P (S k) (epoch_end s)).
  { intros k st s _ Hold Hbody e He.
    destruct (Nat.eq_dec e k) as [-> | Hne]; [| apply Hold; lia].
    apply epoch_body_Ok in Hbody. destruct Hbody as [st1 [Htrain Hval]].
    apply run_phase_Ok in Htrain. destruct Htrain as [_ [_ [Hb1 [Hl1 _]]]].
    apply run_phase_Ok in Hval. destruct Hval as [_ [_ [Hb2 [Hl2 _]]]].
    destruct phase; split; assumption. }
  exact (@run_epochs_invariant C dataloaders num_epochs num_classes is_inception profiler
           P m Hinit Hstep _ _ Ha epoch Hlt).
Qed.

End Contents.

Lemma history_contents_witness :
  exists r,
    train_model (C := Example.toy) Example.scenario_loaders 3 1 false false
      Example.w0 0.5 = Ok r /\
    nth 1 (targets (out_history_of Val r)) [] = [[1]] /\
    nth 1 (outputs (out_history_of Val r)) [] = [[1]].
Proof.
  eexists. split; [vm_compute; reflexivity |].
  pose proof (fun r => @history_contents Example.toy Example.scenario_loaders 3 1
                         false false Example.w0 0.5 r Val 1%nat) as H.
  edestruct H as [HT HO].
  - vm_compute. reflexivity.
  - vm_compute. lia.
  - split; [rewrite HT | rewrite HO]; reflexivity.
Defined.

Lemma returning_run_saw_data_witness :
  exists r,
    train_model (C := Example.toy) Example.scenario_loaders 3 1 false false
      Example.w0 0.5 = Ok r /\
    batches (Example.scenario_loaders Val) 2 <> [].
Proof.
  eexists. split; [vm_compute; reflexivity |].
  pose proof (fun r => @returning_run_saw_data Example.toy Example.scenario_loaders 3 1
                         false false Example.w0 0.5 r Val 2%nat) as H.
  eapply H.
  - vm_compute. reflexivity.
  - vm_compute. lia.
Defined.

(** ** Runs that return *)

Lemma row_matches_same_width (p l : Row) :
  length p = length l -> row_matches p l = Ok (eq_count p l).
Proof. intros E. unfold row_matches. rewrite E, Nat.eqb_refl. reflexivity. Qed.

Lemma rows_matches_shaped (n : Z) (rows : list (Row * Row)) :
  Forall (fun pl => Z.of_nat (length (fst pl)) = n /\ Z.of_nat (length (snd pl)) = n) rows ->
  exists c, rows_matches rows = Ok c.
Proof.
  induction 1 as [| [p l] rows [Hp Hl] _ [c IH]]; simpl.
  - exists 0%Z. reflexivity.
  - simpl in Hp, Hl. rewrite row_matches_same_width by lia. simpl.
    rewrite IH. simpl. eexists. reflexivity.
Qed.

Lemma tensor_matches_shaped (n : Z) (p l : Tensor) :
  length p = length l ->
  Forall (fun r => Z.of_nat (length r) = n) p ->
  Forall (fun r => Z.of_nat (length r) = n) l ->
  exists c, tensor_matches p l = Ok c.
Proof.
  intros E Hp Hl. unfold tensor_matches. rewrite E, Nat.eqb_refl.
  apply (rows_matches_shaped (n := n)). apply Forall_combine_widths; assumption.
Qed.

Lemma same_width_uniform (n : Z) (t : Tensor) :
  Forall (fun r => Z.of_nat (length r) = n) t -> same_width t = true.
Proof.
  intros H. destruct H as [| r t Hr Ht]; simpl; [reflexivity |].
  apply forallb_forall. intros r' Hin.
  rewrite Forall_forall in Ht. specialize (Ht r' Hin).
  apply Nat.eqb_eq. lia.
Qed.

Lemma np_concatenate_shaped (n : Z) (arrays : list Tensor) :
  arrays <> [] ->
  Forall (Forall (fun r => Z.of_nat (length r) = n)) arrays ->
  np_concatenate arrays = Ok (concat arrays).
Proof.
  intros Hne Hall. destruct arrays as [| a arrays]; [contradiction |].
  unfold np_concatenate.
  rewrite (same_width_uniform (n := n)); [reflexivity |].
  apply Forall_concat. exact Hall.
Qed.

Section Returns.

Context {C : Collaborators}.
Variable dataloaders : Phase -> DataLoader.
Variables num_epochs num_classes : Z.
Variables is_inception profiler : bool.
Variable width : Z.

Local Abbreviation step := (batch_step dataloaders num_epochs is_inception profiler).

(** A batch is well shaped for the model [w] that processes it. *)
Local Abbreviation well_shaped phase :=
  (fun wb : world * Batch =>
     (Forall (fun r => Z.of_nat (length r) = width) (batch_preds is_inception phase wb) /\
      Forall (fun r => Z.of_nat (length r) = width) (batch_labels (snd wb))) /\
     (length (batch_preds is_inception phase wb) = batch_size (snd wb) /\
      length (batch_labels (snd wb)) = batch_size (snd wb))).

Lemma batch_step_shaped (epoch : nat) (phase : Phase) (st : PhaseState) (b : Batch) :
  well_shaped phase (ph_model st, b) ->
  exists st', step epoch phase st b = Ok st'.
Proof.
  intros [[Hp Hl] [Hrp Hrl]]. simpl in Hl, Hrp, Hrl.
  destruct (@tensor_matches_shaped width (batch_preds is_inception phase (ph_model st, b))
              (batch_labels b)) as [c Hc]; try assumption.
  { rewrite Hrp, Hrl. reflexivity. }
  unfold batch_preds, batch_outputs, batch_labels in Hc. simpl in Hc.
  unfold batch_step.
  destruct (forward_loss is_inception (ph_model st) phase (map fst b) (map snd b))
    as [outs l].
  simpl in Hc. rewrite Hc. simpl. eexists. reflexivity.
Qed.

Lemma for_each_shaped (epoch : nat) (phase : Phase) (bs : list Batch) (st : PhaseState) :
  Forall (well_shaped phase) (phase_trace is_inception phase (ph_model st) bs) ->
  exists st', for_each (step epoch phase) bs st = Ok st'.
Proof.
  revert st. induction bs as [| b bs IH]; intros st Hshape; simpl.
  - exists st. reflexivity.
  - simpl in Hshape. apply Forall_cons_iff in Hshape.
    destruct Hshape as [Hb Hrest].
    destruct (@batch_step_shaped epoch phase st b Hb) as [st1 Hst1].
    rewrite Hst1. simpl.
    apply IH. apply batch_step_Ok in Hst1.
    destruct Hst1 as [_ [_ [Hm _]]]. rewrite Hm. exact Hrest.
Qed.

Lemma Forall_both {A : Type} (P R : A -> Prop) (xs : list A) :
  Forall P xs -> Forall R xs -> Forall (fun x => P x /\ R x) xs.
Proof.
  intros HP. induction HP as [| x xs Hx _ IH]; intros HR.
  - constructor.
  - apply Forall_cons_iff in HR. destruct HR as [Hr HR].
    constructor; [split; assumption | apply IH; exact HR].
Qed.

(** A phase with data of one common width, one row per example, completes. *)
Lemma run_phase_shaped (epoch : nat) (phase : Phase) (st : LoopState) :
  batches (dataloaders phase) epoch <> [] ->
  dataset_len (dataloaders phase) <> 0%nat ->
  shaped_batches dataloaders is_inception width phase epoch (model st) ->
  rows_per_example dataloaders is_inception phase epoch (model st) ->
  exists st',
    run_phase dataloaders num_epochs num_classes is_inception profiler epoch phase st
    = Ok st'.
Proof.
  intros Hbs Hlen Hshape Hrows.
  unfold shaped_batches, rows_per_example, epoch_trace in Hshape, Hrows.
  destruct (@for_each_shaped epoch phase (batches (dataloaders phase) epoch)
              (phase_start st) (Forall_both Hshape Hrows)) as [ps Hps].
  unfold run_phase. rewrite Hps. simpl.
  apply for_each_step_Ok in Hps.
  destruct Hps as [cs [_ [_ [_ [_ [_ [Hcount [Ht Ho]]]]]]]].
  simpl in Ht, Ho.
  unfold py_div. destruct (Z.of_nat (dataset_len (dataloaders phase)) =? 0)%Z eqn:E;
    [apply Z.eqb_eq in E; lia |]. simpl.
  rewrite (Hcount Hbs). simpl.
  rewrite Ho, Ht.
  rewrite (np_concatenate_shaped (n := width)); simpl.
  - rewrite (np_concatenate_shaped (n := width)); simpl.
    + eexists. reflexivity.
    + destruct (batches (dataloaders phase) epoch); [contradiction | discriminate].
    + rewrite <- (phase_trace_batches is_inception phase (model st)
                    (batches (dataloaders phase) epoch)).
      rewrite map_map. apply Forall_map.
      eapply Forall_impl; [| exact Hshape]. intros wb [_ Hl]. exact Hl.
  - destruct (batches (dataloaders phase) epoch); [contradiction | discriminate].
  - apply Forall_map. eapply Forall_impl; [| exact Hshape]. intros wb [Hp _]. exact Hp.
Qed.

(** X11: a run returns whenever, in each of its epochs, the loader of each
    phase yields at least one batch over a non-empty dataset and every batch,
    processed by the model as the steps before that phase and batch left it,
    gets a prediction tensor and has a label tensor with one row per example,
    the rows of one common width. *)
Theorem well_shaped_run_returns (m : world) (threshold : Q) :
  (forall epoch phase, (epoch < Z.to_nat num_epochs)%nat ->
     batches (dataloaders phase) epoch <> [] /\
     dataset_len (dataloaders phase) <> 0%nat /\
     shaped_batches dataloaders is_inception width phase epoch
       (phase_world dataloaders is_inception phase epoch m) /\
     rows_per_example dataloaders is_inception phase epoch
       (phase_world dataloaders is_inception phase epoch m)) ->
  exists r,
    train_model dataloaders num_epochs num_classes is_inception profiler m threshold = Ok r.
Proof.
  intros Hdata. unfold train_model.
  assert (Hrun : forall count epoch st,
             model st = epochs_model dataloaders is_inception epoch m ->
             (epoch + count <= Z.to_nat num_epochs)%nat ->
             exists st',
               run_epochs dataloaders num_epochs num_classes is_inception profiler
                 count epoch st = Ok st').
  { induction count as [| count IH]; intros epoch st Hmodel Hle; simpl.
    - exists st. reflexivity.
    - unfold epoch_body.
      destruct (Hdata epoch Train ltac:(lia)) as [Hb1 [Hl1 [Hs1 Hr1]]].
      simpl in Hs1, Hr1. rewrite <- Hmodel in Hs1, Hr1.
      destruct (@run_phase_shaped epoch Train (epoch_begin num_epochs epoch st)
                  Hb1 Hl1 Hs1 Hr1) as [st1 Hst1].
      rewrite Hst1. simpl.
      pose proof Hst1 as Hm1. apply run_phase_Ok in Hm1.
      destruct Hm1 as [_ [_ [_ [_ [_ [_ [Hm1 _]]]]]]].
      rewrite phase_model_train in Hm1. simpl in Hm1.
      destruct (Hdata epoch Val ltac:(lia)) as [Hb2 [Hl2 [Hs2 Hr2]]].
      simpl in Hs2, Hr2. unfold train_pass in Hs2, Hr2.
      rewrite <- Hmodel, <- Hm1 in Hs2, Hr2.
      destruct (@run_phase_shaped epoch Val st1 Hb2 Hl2 Hs2 Hr2) as [s Hs].
      rewrite Hs. simpl.
      apply IH; [| lia].
      apply run_phase_Ok in Hs. destruct Hs as [_ [_ [_ [_ [_ [_ [Hm2 _]]]]]]].
      rewrite phase_model_val in Hm2.
      simpl. unfold train_pass. rewrite Hm2, Hm1, Hmodel. reflexivity. }
  destruct (Hrun (Z.to_nat num_epochs) 0%nat (initial_state m) eq_refl ltac:(lia))
    as [st Hst].
  rewrite Hst. simpl. eexists. reflexivity.
Qed.

End Returns.

Lemma well_shaped_run_returns_witness :
  exists r,
    train_model (C := Example.toy) Demo.mixed_loaders 2 2 false false
      Example.w0 0.5 = Ok r.
Proof.
  apply (@well_shaped_run_returns Example.toy Demo.mixed_loaders 2 2 false false 2%Z).
  intros epoch phase Hlt.
  split; [discriminate |]. split; [discriminate |].
  assert (Hcases : epoch = 0%nat \/ epoch = 1%nat) by (simpl in Hlt; lia).
  destruct Hcases as [-> | ->]; destruct phase; split; cbv; forall_members; reflexivity.
Defined.

(** ** Edge cases of a run *)

(** X12: a negative [num_epochs] runs no epoch, like 0: the model comes back
    with its own state dict loaded, and nothing but the closing lines is
    printed. *)
Theorem nonpositive_epochs {C : Collaborators} (dataloaders : Phase -> DataLoader)
  (num_epochs num_classes : Z) (is_inception profiler : bool) (m : world)
  (threshold : Q) :
  (num_epochs <= 0)%Z ->
  exists r,
    train_model dataloaders num_epochs num_classes is_inception profiler m threshold = Ok r /\
    out_model r = load_state_dict (state_dict m) m /\
    out_prof r = None /\
    out_val r = empty_history /\
    out_train r = empty_history /\
    out_stdout r = [LogComplete; LogBestAcc (Fin 0.0); LogBestLoss 10000.0].
Proof.
  intros Hle. unfold train_model.
  replace (Z.to_nat num_epochs) with 0%nat by lia.
  simpl. eexists. split; [reflexivity |]. repeat split.
Qed.

Lemma nonpositive_epochs_witness :
  exists r,
    train_model (C := Example.toy) Example.constant_loaders (-3) 3 false true
      Example.w0 0.5 = Ok r /\
    out_model r = Example.w0.
Proof.
  assert (Hle : (-3 <= 0)%Z) by lia.
  destruct (@nonpositive_epochs Example.toy Example.constant_loaders (-3) 3 false true
              Example.w0 0.5 Hle) as [r [Hrun [Hm _]]].
  exists r. split; [exact Hrun | exact Hm].
Defined.

(** X13: an exception raised while the first training batch is compared
    with its labels ends the whole run with that exception: no later batch,
    phase or epoch runs and nothing is returned. *)
Theorem first_batch_error_propagates {C : Collaborators}
  (dataloaders : Phase -> DataLoader) (num_epochs num_classes : Z)
  (is_inception profiler : bool) (m : world) (threshold : Q)
  (b : Batch) (rest : list Batch) (e : PyError) :
  (0 < num_epochs)%Z ->
  batches (dataloaders Train) 0 = b :: rest ->
  tensor_matches (batch_preds is_inception Train (m, b)) (batch_labels b) = Raise e ->
  train_model dataloaders num_epochs num_classes is_inception profiler m threshold
  = Raise e.
Proof.
  intros Hpos Hbs Herr. unfold train_model.
  destruct (Z.to_nat num_epochs) as [| k] eqn:Hk; [lia |].
  simpl. unfold epoch_body, run_phase. rewrite Hbs. simpl.
  unfold batch_step. simpl.
  unfold batch_preds, batch_outputs, batch_labels in Herr. simpl in Herr.
  destruct (forward_loss is_inception m Train (map fst b) (map snd b)) as [outs l].
  simpl in Herr. rewrite Herr. reflexivity.
Qed.

Lemma first_batch_error_propagates_witness :
  train_model (C := Example.toy) Demo.ragged_loaders 1 3 false false Example.w0 0.5
  = Raise RuntimeError.
Proof.
  assert (Hpos : (0 < 1)%Z) by lia.
  eapply (@first_batch_error_propagates Example.toy Demo.ragged_loaders 1 3 false false
            Example.w0 0.5 _ _ RuntimeError Hpos); reflexivity.
Defined.

(** ** The predictions *)

Lemma spec_threshold_idempotent (x : Q) :
  spec_threshold (spec_threshold x) = spec_threshold x.
Proof. unfold spec_threshold. destruct (Qle_bool 0.5 x); reflexivity. Qed.

(** X14: the predictions have the shape of the raw output, row by row, and
    deriving predictions from predictions changes nothing. *)
Theorem derive_preds_shape_idempotent (outs : Tensor) :
  map (@length Q) (derive_preds outs) = map (@length Q) outs /\
  derive_preds (derive_preds outs) = derive_preds outs.
Proof.
  rewrite !derive_preds_spec. split.
  - rewrite map_map. apply map_ext. intros row. apply length_map.
  - rewrite map_map. apply map_ext. intros row.
    rewrite map_map. apply map_ext. exact spec_threshold_idempotent.
Qed.
